(** * Batched migration of secure-memory (SMA) pages: mm/migrate_sma.c

    A shallow embedding of [__unmap_sma_page], [unmap_sma_pages],
    [__move_sma_page], [move_sma_page], [move_sma_pages] and
    [migrate_sma_pages], followed by the properties of the batch protocol.

    Pages are identified by their page frame number.  The kernel state the
    code reads and writes is gathered in a record [World]; the C functions
    become computations in a state monad over [World] whose outcome is a
    normal return, a [BUG()], or a lock wait that never completes.  What the
    rest of the system decides (lock contention, the result of
    [try_to_unmap] and of [move_to_new_page], the pages supplied) is read from
    an oracle that is part of the world, so that a statement about every
    world is a statement about every behaviour of the environment.

    Layout: the data and the monad; the kernel primitives; the six functions;
    the vocabulary of the specification and the sample worlds; invariants of
    the code; the claims C1 to C10. *)

From Stdlib Require Import ZArith List Bool Lia.
From stdpp Require Import base option list gmap.

Local Open Scope Z_scope.

(** ** Constants *)

(** errno values (include/uapi/asm-generic/errno-base.h) and the success code
    of the migration core (include/linux/migrate.h). *)
Definition EAGAIN : Z := 11.
Definition ENOMEM : Z := 12.
Definition MIGRATEPAGE_SUCCESS : Z := 0.

(** Per-task flags tested by the code (include/linux/sched.h). *)
Definition PF_MEMALLOC : Z := 0x00000800.
Definition PF_SWAPWRITE : Z := 0x00800000.

(** [uint64_t migrate_ipns[2048]]: 8M == 2048 pages. *)
Definition NR_MIGRATE_IPNS : Z := 2048.

Inductive migrate_mode :=
| MIGRATE_ASYNC
| MIGRATE_SYNC_LIGHT
| MIGRATE_SYNC
| MIGRATE_SYNC_NO_COPY.

Definition is_MIGRATE_ASYNC (mode : migrate_mode) : bool :=
  match mode with MIGRATE_ASYNC => true | _ => false end.

(** [enum migrate_reason] is only passed through; it is kept as its integer. *)
Definition migrate_reason := Z.

Inductive smc_req_type := REQ_KVM_TO_S_VISOR_REMAP_IPA | REQ_OTHER (tag : Z).

(** ** Data *)

(** [struct page], restricted to what the code observes.  A mapping of the
    page is the pair (secure VM id, intermediate page number) of the guest
    page that maps it. *)
Record page := Page {
  is_sec_mem : bool;                  (* page->is_sec_mem *)
  locked : bool;                      (* page lock held by the migrating task *)
  writeback : bool;                   (* PageWriteback *)
  anon : bool;                        (* PageAnon *)
  ksm : bool;                         (* PageKsm *)
  movable : bool;                     (* __PageMovable *)
  has_private : bool;                 (* page_has_private *)
  mapping : Z;                        (* page->mapping, 0 is NULL *)
  mappings : list (Z * Z);            (* live mappings: page_mapcount is their number *)
  migration_ptes : list (Z * Z);      (* mappings replaced by migration entries *)
  refcount : Z;                       (* page_count *)
  anon_vma_refs : Z;                  (* references held on the page's anon_vma *)
  last_migrate_reason : option Z      (* set_page_owner_migrate_reason *)
}.

Definition page0 : page :=
  Page false false false false false false false 0 [] [] 0 0 None.

(** [kvm_smc_req_t] with its [remap_ipa] member. *)
Record remap_ipa_t := RemapIpa {
  src_start_pfn : Z;
  dst_start_pfn : Z;
  nr_pages : Z;
  ipn_list : list Z
}.

Record kvm_smc_req := SmcReq {
  sec_vm_id : Z;
  req_type : smc_req_type;
  remap_ipa : remap_ipa_t
}.

(** [struct sec_mem_cache], the object behind [private]. *)
Record sec_mem_cache := SecMemCache { base_pfn : Z }.

(** The call sites of [pr_err], with the values printed. *)
Inductive err_site :=
| Err_non_sma (pfn : Z)                                   (* __unmap_sma_page, line 9 *)
| Err_disk_cache (pfn : Z)                                (* line 38 *)
| Err_not_lru (pfn : Z)                                   (* line 61 *)
| Err_unmap_eagain (pass retry pfn mapcount : Z)          (* unmap_sma_pages, line 125 *)
| Err_unmap_invalid_rc (rc succeed retry pfn : Z)         (* line 136 *)
| Err_lock_newpage (pfn : Z)                              (* __move_sma_page, line 162 *)
| Err_newpage_refcount (count : Z)                        (* line 170 *)
| Err_still_mapped (pfn mapping mapcount : Z)             (* line 174 *)
| Err_no_newpage (count : Z)                              (* move_sma_page, line 209 *)
| Err_non_secure_dest (pfn count mapcount : Z)            (* line 229 *)
| Err_move_page_invalid_rc (rc pfn count : Z)             (* line 240 *)
| Err_move_invalid_rc (rc succeed retry pfn : Z)          (* move_sma_pages, line 279 *)
| Err_failed_unmap (rc : Z)                               (* migrate_sma_pages, line 331 *)
| Err_failed_move (rc : Z).                               (* line 353 *)

(** What the code does to the outside, newest event first. *)
Inductive event :=
| Ev_pr_err (site : err_site)
| Ev_cond_resched
| Ev_get_new_page (pg : Z) (newpage : option Z)
| Ev_put_new_page (newpage : Z)
| Ev_put_page (newpage : Z)
| Ev_smc (req : kvm_smc_req).

(** The three lists of the batch.  [from] is the caller's list; the other two
    are the locals [unmapped_head] and [moved_head] of [migrate_sma_pages]. *)
Inductive list_head := From | Unmapped_head | Moved_head.

Record batch_lists := Lists {
  from : list Z;
  unmapped_head : list Z;
  moved_head : list Z
}.

(** The globals of lines 295-299. *)
Record window := Window {
  is_migrating : bool;
  migrate_sec_vm_id : Z;
  nr_migrate_pages : Z;
  migrate_ipns : list Z
}.

(** The current task and CPU. *)
Record cpu := Cpu {
  current_flags : Z;                  (* current->flags *)
  irqs_disabled : bool;
  smc_req_region : kvm_smc_req        (* get_smc_req_region(smp_processor_id()) *)
}.

(** What the rest of the system decides, consumed call by call:
    - [contended]: for each [trylock_page] on a page this task has not locked,
      whether another task holds the lock at that moment;
    - [unmap_left]: for each [try_to_unmap], how many mappings it fails to
      remove;
    - [move_result]: for each [move_to_new_page], its return code and the
      references it adds to the destination;
    - [supply]: for each [get_new_page], the page supplied, if any.
    An exhausted list means: no contention, full unmap, a successful move that
    adds one reference, no page supplied. *)
Record oracle := Oracle {
  contended : list bool;
  unmap_left : list nat;
  move_result : list (Z * Z);
  supply : list (option Z)
}.

Record World := MkWorld {
  pages : gmap Z page;
  lists : batch_lists;
  mws : window;
  task : cpu;
  log : list event;
  adversary : oracle;
  config_debug_vm : bool              (* CONFIG_DEBUG_VM *)
}.

Definition page_of (w : World) (pfn : Z) : page := default page0 (pages w !! pfn).

Definition set_pages (f : gmap Z page -> gmap Z page) (w : World) : World :=
  MkWorld (f (pages w)) (lists w) (mws w) (task w) (log w) (adversary w) (config_debug_vm w).
Definition set_lists (f : batch_lists -> batch_lists) (w : World) : World :=
  MkWorld (pages w) (f (lists w)) (mws w) (task w) (log w) (adversary w) (config_debug_vm w).
Definition set_mws (f : window -> window) (w : World) : World :=
  MkWorld (pages w) (lists w) (f (mws w)) (task w) (log w) (adversary w) (config_debug_vm w).
Definition set_task (f : cpu -> cpu) (w : World) : World :=
  MkWorld (pages w) (lists w) (mws w) (f (task w)) (log w) (adversary w) (config_debug_vm w).
Definition set_log (f : list event -> list event) (w : World) : World :=
  MkWorld (pages w) (lists w) (mws w) (task w) (f (log w)) (adversary w) (config_debug_vm w).
Definition set_adversary (f : oracle -> oracle) (w : World) : World :=
  MkWorld (pages w) (lists w) (mws w) (task w) (log w) (f (adversary w)) (config_debug_vm w).

Definition update_page (pfn : Z) (f : page -> page) (w : World) : World :=
  set_pages (fun m => <[pfn := f (page_of w pfn)]> m) w.

Definition list_of (h : list_head) (w : World) : list Z :=
  match h with
  | From => from (lists w)
  | Unmapped_head => unmapped_head (lists w)
  | Moved_head => moved_head (lists w)
  end.

Definition set_list (h : list_head) (f : list Z -> list Z) (w : World) : World :=
  set_lists (fun l =>
    match h with
    | From => Lists (f (from l)) (unmapped_head l) (moved_head l)
    | Unmapped_head => Lists (from l) (f (unmapped_head l)) (moved_head l)
    | Moved_head => Lists (from l) (unmapped_head l) (f (moved_head l))
    end) w.

(** ** The monad *)

Inductive stop := BUG | DEADLOCK.

Inductive outcome (A : Type) :=
| Ret (a : A) (w : World)
| Stop (why : stop) (w : World).
Arguments Ret {A} a w.
Arguments Stop {A} why w.

Definition world_of {A} (o : outcome A) : World :=
  match o with Ret _ w => w | Stop _ w => w end.

Definition M (A : Type) : Type := World -> outcome A.

Definition ret {A} (a : A) : M A := fun w => Ret a w.

Definition bind {A B} (m : M A) (k : A -> M B) : M B :=
  fun w => match m w with
           | Ret a w' => k a w'
           | Stop why w' => Stop why w'
           end.

Notation "x <- m ;; k" := (bind m (fun x => k))
  (at level 100, m at next level, k at level 200, right associativity).
Notation "m ;;; k" := (bind m (fun _ => k))
  (at level 100, k at level 200, right associativity).

Definition read {A} (f : World -> A) : M A := fun w => Ret (f w) w.
Definition modify (f : World -> World) : M unit := fun w => Ret tt (f w).
Definition when (b : bool) (m : M unit) : M unit := if b then m else ret tt.

Definition emit (e : event) : M unit := modify (set_log (cons e)).
Definition pr_err (site : err_site) : M unit := emit (Ev_pr_err site).
Definition BUG_ {A} : M A := fun w => Stop BUG w.

(** Iteration over a list of pages, threading the loop variables. *)
Fixpoint foldM {S} (body : S -> Z -> M S) (st : S) (l : list Z) : M S :=
  match l with
  | [] => ret st
  | x :: l' => st' <- body st x ;; foldM body st' l'
  end.

(** ** Kernel primitives the code calls

    The primitives are not part of mm/migrate_sma.c; each is given the effect
    on [World] that the code relies on. *)

Definition with_locked (b : bool) (p : page) : page :=
  Page (is_sec_mem p) b (writeback p) (anon p) (ksm p) (movable p) (has_private p)
       (mapping p) (mappings p) (migration_ptes p) (refcount p) (anon_vma_refs p)
       (last_migrate_reason p).
Definition with_maps (live gone : list (Z * Z)) (p : page) : page :=
  Page (is_sec_mem p) (locked p) (writeback p) (anon p) (ksm p) (movable p) (has_private p)
       (mapping p) live gone (refcount p) (anon_vma_refs p) (last_migrate_reason p).
Definition with_identity (a k : bool) (m : Z) (p : page) : page :=
  Page (is_sec_mem p) (locked p) (writeback p) a k (movable p) (has_private p)
       m (mappings p) (migration_ptes p) (refcount p) (anon_vma_refs p)
       (last_migrate_reason p).
Definition with_refcount (c : Z) (p : page) : page :=
  Page (is_sec_mem p) (locked p) (writeback p) (anon p) (ksm p) (movable p) (has_private p)
       (mapping p) (mappings p) (migration_ptes p) c (anon_vma_refs p)
       (last_migrate_reason p).
Definition with_anon_vma_refs (c : Z) (p : page) : page :=
  Page (is_sec_mem p) (locked p) (writeback p) (anon p) (ksm p) (movable p) (has_private p)
       (mapping p) (mappings p) (migration_ptes p) (refcount p) c
       (last_migrate_reason p).
Definition with_reason (r : option Z) (p : page) : page :=
  Page (is_sec_mem p) (locked p) (writeback p) (anon p) (ksm p) (movable p) (has_private p)
       (mapping p) (mappings p) (migration_ptes p) (refcount p) (anon_vma_refs p) r.

Definition page_to_pfn (pg : Z) : Z := pg.
Definition page_mapcount (w : World) (pg : Z) : Z := Z.of_nat (length (mappings (page_of w pg))).
Definition page_mapped (w : World) (pg : Z) : bool := 0 <? page_mapcount w pg.
Definition page_count (w : World) (pg : Z) : Z := refcount (page_of w pg).

(** [trylock_page]: fails when the lock is held, by this task or, as the
    oracle says, by another one; otherwise takes the lock. *)
Definition trylock_page (pg : Z) : M bool := fun w =>
  if locked (page_of w pg) then Ret false w
  else match contended (adversary w) with
       | true :: t =>
           Ret false (set_adversary (fun o => Oracle t (unmap_left o) (move_result o) (supply o)) w)
       | false :: t =>
           Ret true (update_page pg (with_locked true)
                       (set_adversary (fun o => Oracle t (unmap_left o) (move_result o) (supply o)) w))
       | [] => Ret true (update_page pg (with_locked true) w)
       end.

(** [lock_page]: sleeps until the lock is free, then takes it.  Another holder
    releases it eventually; a lock this task already holds is never released,
    and the wait does not end. *)
Definition lock_page (pg : Z) : M unit := fun w =>
  if locked (page_of w pg) then Stop DEADLOCK w
  else Ret tt (update_page pg (with_locked true) w).

Definition unlock_page (pg : Z) : M unit := modify (update_page pg (with_locked false)).

Definition cond_resched : M unit := emit Ev_cond_resched.

(** Modelled from the spec: the fault/notifier handler [handle_hva_to_gpa]
    that records intermediate addresses is not in mm/migrate_sma.c.  Per the
    spec, while the in-progress flag is set each removed mapping records its
    compartment and its intermediate address in the table and increments the
    page counter; an address beyond the table capacity is fatal. *)
Definition record_ipn (m : Z * Z) : M unit := fun w =>
  if is_migrating (mws w) then
    if nr_migrate_pages (mws w) <? NR_MIGRATE_IPNS then
      Ret tt (set_mws (fun g =>
                Window (is_migrating g) (fst m) (nr_migrate_pages g + 1)
                       (<[Z.to_nat (nr_migrate_pages g) := snd m]> (migrate_ipns g))) w)
    else Stop BUG w
  else Ret tt w.

Fixpoint record_ipns (ms : list (Z * Z)) : M unit :=
  match ms with
  | [] => ret tt
  | m :: ms' => record_ipn m ;;; record_ipns ms'
  end.

(** [try_to_unmap]: replaces mappings of the page by migration entries, all
    but the number the oracle leaves in place, and reports whether none is
    left.  Each removed mapping goes through [record_ipn]. *)
Definition try_to_unmap (pg : Z) : M bool := fun w =>
  let left :=
    match unmap_left (adversary w) with [] => O | n :: _ => n end in
  let w1 := set_adversary (fun o => Oracle (contended o) (tail (unmap_left o))
                                      (move_result o) (supply o)) w in
  let p := page_of w1 pg in
  let keep := firstn left (mappings p) in
  let gone := skipn left (mappings p) in
  (record_ipns gone ;;;
   modify (update_page pg (fun q => with_maps keep (gone ++ migration_ptes q) q)) ;;;
   ret (match keep with [] => true | _ => false end)) w1.

(** [remove_migration_ptes(old, new, false)]: the migration entries of [old]
    become mappings of [new]. *)
Definition remove_migration_ptes (old new : Z) : M unit := fun w =>
  let gone := migration_ptes (page_of w old) in
  let w1 := update_page old (fun q => with_maps (mappings q) [] q) w in
  Ret tt (update_page new (fun q => with_maps (mappings q ++ gone) (migration_ptes q) q) w1).

(** [page_get_anon_vma]: a reference on the anon_vma of a mapped anonymous
    page; NULL (false) when the page is not anonymous or not mapped. *)
Definition page_get_anon_vma (pg : Z) : M bool := fun w =>
  if anon (page_of w pg) && page_mapped w pg
  then Ret true (update_page pg (fun q => with_anon_vma_refs (anon_vma_refs q + 1) q) w)
  else Ret false w.

Definition put_anon_vma (pg : Z) : M unit :=
  modify (update_page pg (fun q => with_anon_vma_refs (anon_vma_refs q - 1) q)).

(** [move_to_new_page(newpage, page, mode)]: the oracle gives the return code
    and the references added to [newpage]; on success the address-space
    identity of [page] passes to [newpage]. *)
Definition move_to_new_page (newpage pg : Z) (mode : migrate_mode) : M Z := fun w =>
  let '(rc, refs) :=
    match move_result (adversary w) with [] => (MIGRATEPAGE_SUCCESS, 1) | r :: _ => r end in
  let w1 := set_adversary (fun o => Oracle (contended o) (unmap_left o)
                                      (tail (move_result o)) (supply o)) w in
  let w2 := update_page newpage (fun q => with_refcount (refcount q + refs) q) w1 in
  if rc =? MIGRATEPAGE_SUCCESS then
    let src := page_of w2 pg in
    let w3 := update_page newpage (with_identity (anon src) (ksm src) (mapping src)) w2 in
    Ret rc (update_page pg (with_identity false false 0) w3)
  else Ret rc w2.

(** The page-supply callback [get_new_page(page, private)]. *)
Definition get_new_page (pg : Z) (private : sec_mem_cache) : M (option Z) := fun w =>
  let r := match supply (adversary w) with [] => None | r :: _ => r end in
  let w1 := set_adversary (fun o => Oracle (contended o) (unmap_left o)
                                      (move_result o) (tail (supply o))) w in
  Ret r (set_log (cons (Ev_get_new_page pg r)) w1).

(** The release callback [put_new_page(newpage, private)]. *)
Definition put_new_page_cb (newpage : Z) (private : sec_mem_cache) : M unit :=
  emit (Ev_put_new_page newpage).

Definition put_page (pg : Z) : M unit :=
  modify (update_page pg (fun q => with_refcount (refcount q - 1) q)) ;;;
  emit (Ev_put_page pg).

Definition set_page_owner_migrate_reason (pg : Z) (reason : migrate_reason) : M unit :=
  modify (update_page pg (with_reason (Some reason))).

(** [VM_BUG_ON_PAGE(cond, page)]: a [BUG()] under CONFIG_DEBUG_VM, nothing
    otherwise. *)
Definition VM_BUG_ON_PAGE (cond : bool) : M unit := fun w =>
  if config_debug_vm w && cond then Stop BUG w else Ret tt w.

(** [list_del(&page->lru)]: the page leaves the list it is on. *)
Definition list_del (pg : Z) : M unit :=
  modify (set_lists (fun l =>
    Lists (filter (fun q => q <> pg) (from l))
          (filter (fun q => q <> pg) (unmapped_head l))
          (filter (fun q => q <> pg) (moved_head l)))).

(** [list_add(&page->lru, head)]: insertion right after the head. *)
Definition list_add (pg : Z) (head : list_head) : M unit :=
  modify (set_list head (cons pg)).

Definition INIT_LIST_HEAD (head : list_head) : M unit :=
  modify (set_list head (fun _ => [])).

(** [list_for_each_entry_safe(page, page2, head, lru)]: the body may unlink
    the current page, so the walk visits the entries present at its start. *)
Definition list_for_each_entry_safe {S} (head : list_head) (body : S -> Z -> M S) (st : S) : M S :=
  l <- read (list_of head) ;; foldM body st l.

(** ** mm/migrate_sma.c *)

(** Lines 14-35: taking the page lock.  The result is false where the C code
    leaves through [goto out]. *)
Definition __unmap_sma_page_lock (pg : Z) (force : bool) (mode : migrate_mode) : M bool :=
  got <- trylock_page pg ;;
  if got then ret true
  else if negb force || is_MIGRATE_ASYNC mode then ret false
  else
    flags <- read (fun w => current_flags (task w)) ;;
    if negb (Z.land flags PF_MEMALLOC =? 0) then ret false
    else lock_page pg ;;; ret true.

(** Lines 1-93.  [force] is the C int used as a truth value. *)
Definition __unmap_sma_page (pg : Z) (force : bool)
    (mode : migrate_mode) (reason : migrate_reason) : M Z :=
  let rc := - EAGAIN in
  is_lru <- read (fun w => negb (movable (page_of w pg))) ;;
  sec <- read (fun w => is_sec_mem (page_of w pg)) ;;
  if negb sec then
    pr_err (Err_non_sma (page_to_pfn pg)) ;;; BUG_
  else
  held <- __unmap_sma_page_lock pg force mode ;;
  if negb held then ret rc
  else
  wb <- read (fun w => writeback (page_of w pg)) ;;
  if wb then
    pr_err (Err_disk_cache (page_to_pfn pg)) ;;; BUG_
  else
  is_anon <- read (fun w => anon (page_of w pg) && negb (ksm (page_of w pg))) ;;
  anon_vma <- (if is_anon then page_get_anon_vma pg else ret false) ;;
  if negb is_lru then
    pr_err (Err_not_lru (page_to_pfn pg)) ;;; BUG_
  else
  mapping_ <- read (fun w => mapping (page_of w pg)) ;;
  rc <- (if mapping_ =? 0 then
           a <- read (fun w => anon (page_of w pg)) ;;
           VM_BUG_ON_PAGE a ;;;
           p <- read (fun w => has_private (page_of w pg)) ;;
           VM_BUG_ON_PAGE p ;;;
           mapped <- read (fun w => page_mapped w pg) ;;
           if negb mapped then ret MIGRATEPAGE_SUCCESS else ret rc
         else
           mapped <- read (fun w => page_mapped w pg) ;;
           if mapped then
             c <- read (fun w => anon (page_of w pg) && negb (ksm (page_of w pg))
                                 && negb anon_vma) ;;
             VM_BUG_ON_PAGE c ;;;
             is_unmapped <- try_to_unmap pg ;;
             if is_unmapped then ret MIGRATEPAGE_SUCCESS
             else
               remove_migration_ptes pg pg ;;;
               unlock_page pg ;;;
               ret rc
           else ret rc) ;;
  when anon_vma (put_anon_vma pg) ;;;
  ret rc.

(** Lines 95-99. *)
Definition unmap_sma_page (pg : Z) (force : bool)
    (mode : migrate_mode) (reason : migrate_reason) : M Z :=
  __unmap_sma_page pg force mode reason.

(** The locals of the two retry loops.  They are C ints; [retry] and
    [nr_succeeded] grow by at most one per page and pass, far below 2^31 for
    any list of pages, so no wrap-around is written. *)
Record loop_vars := LoopVars {
  retry : Z;
  nr_succeeded : Z;
  pass : Z;
  rc_ : Z
}.

Definition with_retry (r : Z) (st : loop_vars) : loop_vars :=
  LoopVars r (nr_succeeded st) (pass st) (rc_ st).
Definition next_pass (st : loop_vars) : loop_vars :=
  LoopVars (retry st) (nr_succeeded st) (pass st + 1) (rc_ st).

(** [for (pass = 0; pass < 10 && retry; pass++) { retry = 0; body }].  The
    bound of the loop is in its condition; [n] only has to be at least the
    number of passes left (see [for_passes_enough]). *)
Fixpoint for_passes (body : loop_vars -> M loop_vars) (n : nat) (st : loop_vars) : M loop_vars :=
  match n with
  | O => ret st
  | S n' =>
      if (pass st <? 10) && negb (retry st =? 0) then
        st' <- body (with_retry 0 st) ;;
        for_passes body n' (next_pass st')
      else ret st
  end.

(** Lines 116-141: the body of the list walk of [unmap_sma_pages]. *)
Definition unmap_sma_pages_entry (mode : migrate_mode) (reason : migrate_reason)
    (unmapped : list_head) (st : loop_vars) (pg : Z) : M loop_vars :=
  cond_resched ;;;
  rc <- unmap_sma_page pg (2 <? pass st) mode reason ;;
  if rc =? - EAGAIN then
    let st := LoopVars (retry st + 1) (nr_succeeded st) (pass st) rc in
    mc <- read (fun w => page_mapcount w pg) ;;
    when (pass st =? 10)
      (pr_err (Err_unmap_eagain (pass st) (retry st) (page_to_pfn pg) mc)) ;;;
    ret st
  else if rc =? MIGRATEPAGE_SUCCESS then
    let st := LoopVars (retry st) (nr_succeeded st + 1) (pass st) rc in
    (* Move page from *from* to *unmapped_head* *)
    list_del pg ;;;
    list_add pg unmapped ;;;
    ret st
  else
    let st := LoopVars (retry st) (nr_succeeded st) (pass st) rc in
    pr_err (Err_unmap_invalid_rc rc (nr_succeeded st) (retry st) (page_to_pfn pg)) ;;;
    ret st.

(** Lines 101-145, with the locals at the exit of the loop. *)
Definition unmap_sma_pages_loop (from_ : list_head) (mode : migrate_mode)
    (reason : migrate_reason) (unmapped : list_head) : M loop_vars :=
  for_passes
    (list_for_each_entry_safe from_ (unmap_sma_pages_entry mode reason unmapped))
    10 (LoopVars 1 0 0 MIGRATEPAGE_SUCCESS).

Definition unmap_sma_pages (from_ : list_head) (mode : migrate_mode)
    (reason : migrate_reason) (unmapped : list_head) : M Z :=
  st <- unmap_sma_pages_loop from_ mode reason unmapped ;; ret (rc_ st).

(** Lines 147-197. *)
Definition __move_sma_page (pg newpage : Z) (mode : migrate_mode) : M Z :=
  let rc := - EAGAIN in
  got <- trylock_page newpage ;;
  if negb got then
    pr_err (Err_lock_newpage (page_to_pfn newpage)) ;;; ret rc
  else
  mapped <- read (fun w => page_mapped w pg) ;;
  if negb mapped then
    rc <- move_to_new_page newpage pg mode ;;
    cnt <- read (fun w => page_count w newpage) ;;
    when (negb (cnt =? 2)) (pr_err (Err_newpage_refcount cnt)) ;;;
    (* page must be mapped in *__unmap_sma_page* after *try_to_unmap* *)
    when (rc =? MIGRATEPAGE_SUCCESS) (remove_migration_ptes pg newpage) ;;;
    unlock_page newpage ;;;
    if negb (rc =? MIGRATEPAGE_SUCCESS) then ret rc
    else
      anon_vma <- page_get_anon_vma pg ;;
      when anon_vma (put_anon_vma pg) ;;;
      unlock_page pg ;;;
      ret rc
  else
    m <- read (fun w => mapping (page_of w pg)) ;;
    mc <- read (fun w => page_mapcount w pg) ;;
    pr_err (Err_still_mapped (page_to_pfn pg) m mc) ;;;
    ret rc.

(** Lines 199-245.  [put_new_page] is false for a NULL callback. *)
Definition move_sma_page (put_new_page : bool) (private : sec_mem_cache)
    (pg : Z) (mode : migrate_mode) (reason : migrate_reason) : M Z :=
  newpage <- get_new_page pg private ;;
  match newpage with
  | None =>
      cnt <- read (fun w => page_count w pg) ;;
      pr_err (Err_no_newpage cnt) ;;;
      ret (- ENOMEM)
  | Some newpage =>
      rc <- __move_sma_page pg newpage mode ;;
      when (rc =? MIGRATEPAGE_SUCCESS) (set_page_owner_migrate_reason newpage reason) ;;;
      (if rc =? MIGRATEPAGE_SUCCESS then
         sec <- read (fun w => is_sec_mem (page_of w newpage)) ;;
         if negb sec then
           cnt <- read (fun w => page_count w pg) ;;
           mc <- read (fun w => page_mapcount w pg) ;;
           pr_err (Err_non_secure_dest (page_to_pfn pg) cnt mc) ;;; BUG_
         else ret tt
       else if rc =? - EAGAIN then
         if put_new_page then put_new_page_cb newpage private
         else put_page newpage
       else
         cnt <- read (fun w => page_count w pg) ;;
         pr_err (Err_move_page_invalid_rc rc (page_to_pfn pg) cnt)) ;;;
      ret rc
  end.

(** Lines 263-284: the body of the list walk of [move_sma_pages]. *)
Definition move_sma_pages_entry (put_new_page : bool) (private : sec_mem_cache)
    (mode : migrate_mode) (reason : migrate_reason) (moved : list_head)
    (st : loop_vars) (pg : Z) : M loop_vars :=
  cond_resched ;;;
  rc <- move_sma_page put_new_page private pg mode reason ;;
  if rc =? - EAGAIN then
    ret (LoopVars (retry st + 1) (nr_succeeded st) (pass st) rc)
  else if rc =? MIGRATEPAGE_SUCCESS then
    let st := LoopVars (retry st) (nr_succeeded st + 1) (pass st) rc in
    (* Move page from *unmapped_head* to *moved_head* *)
    list_del pg ;;;
    list_add pg moved ;;;
    ret st
  else
    let st := LoopVars (retry st) (nr_succeeded st) (pass st) rc in
    pr_err (Err_move_invalid_rc rc (nr_succeeded st) (retry st) (page_to_pfn pg)) ;;;
    ret st.

(** Lines 247-288, with the locals at the exit of the loop. *)
Definition move_sma_pages_loop (put_new_page : bool) (private : sec_mem_cache)
    (unmapped : list_head) (mode : migrate_mode) (reason : migrate_reason)
    (moved : list_head) : M loop_vars :=
  for_passes
    (list_for_each_entry_safe unmapped
       (move_sma_pages_entry put_new_page private mode reason moved))
    10 (LoopVars 1 0 0 MIGRATEPAGE_SUCCESS).

Definition move_sma_pages (put_new_page : bool) (private : sec_mem_cache)
    (unmapped : list_head) (mode : migrate_mode) (reason : migrate_reason)
    (moved : list_head) : M Z :=
  st <- move_sma_pages_loop put_new_page private unmapped mode reason moved ;;
  ret (rc_ st).

(** [asm volatile("smc #0x18")]: the monitor receives the request region as it
    is at that instant. *)
Definition smc : M unit :=
  req <- read (fun w => smc_req_region (task w)) ;; emit (Ev_smc req).

Definition local_irq_disable : M unit :=
  modify (set_task (fun c => Cpu (current_flags c) true (smc_req_region c))).
Definition local_irq_enable : M unit :=
  modify (set_task (fun c => Cpu (current_flags c) false (smc_req_region c))).
Definition set_current_flags (f : Z -> Z) : M unit :=
  modify (set_task (fun c => Cpu (f (current_flags c)) (irqs_disabled c) (smc_req_region c))).

(** Lines 306-363.  [list_first_entry] of an empty list is not a page; its
    frame number is taken as 0 there. *)
Definition migrate_sma_pages (put_new_page : bool) (private : sec_mem_cache)
    (mode : migrate_mode) (reason : migrate_reason) : M Z :=
  swapwrite <- read (fun w => Z.land (current_flags (task w)) PF_SWAPWRITE) ;;
  head_page <- read (fun w => hd 0 (list_of From w)) ;;
  let src_base_pfn := page_to_pfn head_page in
  let dst_base_pfn := base_pfn private in
  INIT_LIST_HEAD Unmapped_head ;;;
  INIT_LIST_HEAD Moved_head ;;;
  when (swapwrite =? 0) (set_current_flags (fun f => Z.lor f PF_SWAPWRITE)) ;;;
  (* Init variables to record IPA range, used in *handle_hva_to_gpa* *)
  modify (set_mws (fun g => Window (is_migrating g) 0 (nr_migrate_pages g) (migrate_ipns g))) ;;;
  modify (set_mws (fun g => Window (is_migrating g) (migrate_sec_vm_id g) 0 (migrate_ipns g))) ;;;
  modify (set_mws (fun g => Window true (migrate_sec_vm_id g) (nr_migrate_pages g) (migrate_ipns g))) ;;;
  rc <- unmap_sma_pages From mode reason Unmapped_head ;;
  rc <- (if negb (rc =? 0) then
           pr_err (Err_failed_unmap rc) ;;;
           ret rc                                           (* goto out *)
         else
           modify (set_mws (fun g => Window false (migrate_sec_vm_id g) (nr_migrate_pages g)
                                            (migrate_ipns g))) ;;;
           g <- read mws ;;
           modify (set_task (fun c =>
             Cpu (current_flags c) (irqs_disabled c)
                 (SmcReq (migrate_sec_vm_id g) REQ_KVM_TO_S_VISOR_REMAP_IPA
                    (RemapIpa src_base_pfn dst_base_pfn (Z.shiftl 8 (20 - 12))
                              (migrate_ipns g))))) ;;;
           local_irq_disable ;;;
           smc ;;;
           local_irq_enable ;;;
           (* S-visor has copied secure memory, change mode to SYNC_NO_COPY *)
           let mode := MIGRATE_SYNC_NO_COPY in
           rc <- move_sma_pages put_new_page private Unmapped_head mode reason Moved_head ;;
           when (negb (rc =? 0)) (pr_err (Err_failed_move rc)) ;;;
           ret rc) ;;
  (* out: *)
  when (swapwrite =? 0) (set_current_flags (fun f => Z.land f (Z.lnot PF_SWAPWRITE))) ;;;
  ret rc.

(** ** Specification vocabulary *)

(** Invariants: [I] holds in the world of every outcome of [m]. *)
Definition inv {A} (I : World -> Prop) (m : M A) : Prop :=
  forall w, I w -> I (world_of (m w)).

(** [returns P m]: whenever [m] returns, its result satisfies [P]. *)
Definition returns {A} (P : A -> Prop) (m : M A) : Prop :=
  forall w a w', m w = Ret a w' -> P a.

(** What a run leaves for the caller to see. *)
Definition result_of (o : outcome Z) : option Z :=
  match o with Ret rc _ => Some rc | Stop _ _ => None end.

Definition stopped {A} (o : outcome A) : option stop :=
  match o with Ret _ _ => None | Stop why _ => Some why end.

Definition locals_of (o : outcome loop_vars) : option loop_vars :=
  match o with Ret st _ => Some st | Stop _ _ => None end.

(** *** The three lists *)

Definition all_pages (w : World) : list Z :=
  from (lists w) ++ unmapped_head (lists w) ++ moved_head (lists w).

(** Every page of [orig] is on exactly one of the three lists, and nothing
    else is on them. *)
Definition partitions (orig : list Z) (w : World) : Prop :=
  NoDup (all_pages w) /\ all_pages w ≡ₚ orig.

(** *** The log *)

(** The requests sent to the monitor, newest first. *)
Definition smc_requests (w : World) : list kvm_smc_req :=
  omap (fun e => match e with Ev_smc r => Some r | _ => None end) (log w).

Definition is_smc (e : event) : bool :=
  match e with Ev_smc _ => true | _ => false end.

Definition count_events (f : event -> bool) (l : list event) : Z :=
  Z.of_nat (length (List.filter f l)).

Definition is_get_new_page (pg : Z) (e : event) : bool :=
  match e with Ev_get_new_page q _ => q =? pg | _ => false end.
Definition is_put_new_page (e : event) : bool :=
  match e with Ev_put_new_page _ => true | _ => false end.
Definition is_put_page (e : event) : bool :=
  match e with Ev_put_page _ => true | _ => false end.

(** The supply and release calls so far: [n_get pg] counts the calls of
    [get_new_page] for the page [pg]. *)
Definition n_get (pg : Z) (w : World) : Z := count_events (is_get_new_page pg) (log w).
Definition n_put_new_page (w : World) : Z := count_events is_put_new_page (log w).
Definition n_put_page (w : World) : Z := count_events is_put_page (log w).

(** *** The intermediate-address table *)


(** *** Sample pages and worlds *)

(** An anonymous secure page, mapped once: by guest [vm] at intermediate page
    number [ipn]. *)
Definition guest_page (vm ipn : Z) : page :=
  Page true false false true false false false 4096 [(vm, ipn)] [] 1 0 None.

(** The same page as the Unmap Phase leaves it: locked, its mapping replaced
    by a migration entry. *)
Definition unmapped_page (vm ipn : Z) : page :=
  Page true true false true false false false 4096 [] [(vm, ipn)] 1 0 None.

(** A secure page as the supplier hands it out: unmapped, one reference. *)
Definition spare_page : page :=
  Page true false false false false false false 0 [] [] 1 0 None.

(** A secure page with a NULL mapping that is still mapped. *)
Definition orphan_page (vm ipn : Z) : page :=
  Page true false false false false false false 0 [(vm, ipn)] [] 1 0 None.

(** A page outside the secure compartment. *)
Definition normal_page : page :=
  Page false false false true false false false 4096 [] [] 1 0 None.

(** A secure page under writeback. *)
Definition writeback_page : page :=
  Page true false true false false false false 4096 [] [] 1 0 None.

Definition no_request : kvm_smc_req := SmcReq 0 (REQ_OTHER 0) (RemapIpa 0 0 0 []).

(** The state after boot (all-zero table, empty log, CONFIG_DEBUG_VM off) with
    the given pages, the batch on [from], and the oracle. *)
Definition boot (ps : list (Z * page)) (batch : list Z) (o : oracle) : World :=
  MkWorld (list_to_map ps) (Lists batch [] [])
          (Window false 0 0 (replicate (Z.to_nat NR_MIGRATE_IPNS) 0))
          (Cpu 0 false no_request) [] o false.

(** The state at the start of a Move Phase: the pages on the unmapped list,
    [nr] addresses recorded for guest 7. *)
Definition moving (ps : list (Z * page)) (unmapped : list Z) (nr : Z) (o : oracle) : World :=
  MkWorld (list_to_map ps) (Lists [] unmapped [])
          (Window false 7 nr (replicate (Z.to_nat NR_MIGRATE_IPNS) 0))
          (Cpu 0 false no_request) [] o false.


(** Two pages whose locks other tasks hold: page 1 during all ten passes,
    page 2 during the first nine. *)
Definition contention_world : World :=
  boot [(1, guest_page 7 100); (2, guest_page 7 101); (12, spare_page)] [1; 2]
       (Oracle (replicate 19 true) [] [] [Some 12]).

(** One page whose lock another task holds during all ten passes. *)
Definition busy_world : World :=
  boot [(1, guest_page 7 100)] [1] (Oracle (replicate 10 true) [] [] []).



(** Four pages; the supplier has nothing for the first page the Move Phase
    visits (page 4, the head of the unmapped list). *)
Definition short_supply_world : World :=
  boot [(1, guest_page 7 100); (2, guest_page 7 101); (3, guest_page 7 102);
        (4, guest_page 7 103); (11, spare_page); (12, spare_page); (13, spare_page)]
       [1; 2; 3; 4]
       (Oracle [] [] [] [None; Some 13; Some 12; Some 11]).

(** The Move Phase with the locks of the destinations held by other tasks:
    for page 1 on all ten passes, for page 2 on the first nine. *)
Definition move_contention_world : World :=
  moving [(1, unmapped_page 7 100); (2, unmapped_page 7 101);
          (11, spare_page); (12, spare_page)] [1; 2] 2
         (Oracle (replicate 19 true) [] [] (concat (replicate 10 [Some 11; Some 12]))).

(** One page whose destination is locked by another task on the first pass. *)
Definition retry_world : World :=
  moving [(1, unmapped_page 7 100); (11, spare_page); (12, spare_page)] [1] 1
         (Oracle [true] [] [] [Some 11; Some 12]).

(** One page whose destination ends the move with one reference. *)
Definition single_move_world : World :=
  moving [(1, unmapped_page 7 100); (11, spare_page)] [1] 1
         (Oracle [] [] [(MIGRATEPAGE_SUCCESS, 0)] [Some 11]).

(** Two pages, no contention, a destination for each: everything succeeds. *)
Definition calm_world : World :=
  boot [(1, guest_page 7 100); (2, guest_page 7 101); (11, spare_page); (12, spare_page)]
       [1; 2] (Oracle [] [] [] [Some 12; Some 11]).

Definition is_cond_resched (e : event) : bool :=
  match e with Ev_cond_resched => true | _ => false end.
Definition is_supply (e : event) : bool :=
  match e with Ev_get_new_page _ _ => true | _ => false end.

(** The iterations of the list walks so far (each starts with
    [cond_resched]), and the calls of [get_new_page] so far. *)
Definition n_iterations (w : World) : Z := count_events is_cond_resched (log w).
Definition n_supply (w : World) : Z := count_events is_supply (log w).

Definition pending (w : World) : Z := Z.of_nat (length (from (lists w))).
Definition unmapped (w : World) : Z := Z.of_nat (length (unmapped_head (lists w))).

(** The two diagnostics of the walk of [unmap_sma_pages]: the -EAGAIN report
    of lines 119-122 and the invalid-code report of lines 135-138. *)
Definition is_loop_report (e : event) : bool :=
  match e with
  | Ev_pr_err (Err_unmap_eagain _ _ _ _) => true
  | Ev_pr_err (Err_unmap_invalid_rc _ _ _ _) => true
  | _ => false
  end.
Definition n_loop_reports (w : World) : Z := count_events is_loop_report (log w).
(** ** Reasoning about computations *)

Lemma inv_ret {A} I (a : A) : inv I (ret a).
Proof. intros w H. exact H. Qed.

Lemma inv_read {A} I (f : World -> A) : inv I (read f).
Proof. intros w H. exact H. Qed.

Lemma inv_BUG {A} I : inv I (@BUG_ A).
Proof. intros w H. exact H. Qed.

Lemma inv_bind {A B} I (m : M A) (k : A -> M B) :
  inv I m -> (forall a, inv I (k a)) -> inv I (bind m k).
Proof.
  intros Hm Hk w Hw. unfold bind. specialize (Hm w Hw).
  destruct (m w) as [a w'|why w']; simpl in *; [apply Hk|]; assumption.
Qed.

Lemma inv_modify I (f : World -> World) :
  (forall w, I w -> I (f w)) -> inv I (modify f).
Proof. intros Hf w Hw. apply Hf, Hw. Qed.

Lemma inv_when I (b : bool) (m : M unit) : inv I m -> inv I (when b m).
Proof. destruct b; simpl; [auto | intros _; apply inv_ret]. Qed.

Lemma inv_foldM {S} I (body : S -> Z -> M S) (P : Z -> Prop) (l : list Z) :
  (forall st x, P x -> inv I (body st x)) ->
  Forall P l -> forall st, inv I (foldM body st l).
Proof.
  intros Hb Hl. induction Hl as [|x l Hx _ IH]; intros st; simpl.
  - apply inv_ret.
  - apply inv_bind; [apply Hb, Hx | intros st'; apply IH].
Qed.

Lemma inv_for_passes I (body : loop_vars -> M loop_vars) (n : nat) :
  (forall st, inv I (body st)) -> forall st, inv I (for_passes body n st).
Proof.
  intros Hb. induction n as [|n IH]; intros st; simpl.
  - apply inv_ret.
  - destruct (_ && _); [|apply inv_ret].
    apply inv_bind; [apply Hb | intros st'; apply IH].
Qed.

(** Walks the structure of a computation, leaving its calls to [leaf]. *)
Ltac inv_struct leaf :=
  repeat lazymatch goal with
  | |- inv _ (ret _) => apply inv_ret
  | |- inv _ (read _) => apply inv_read
  | |- inv _ BUG_ => apply inv_BUG
  | |- inv _ (bind _ _) => apply inv_bind; [|intros ?]
  | |- inv _ (when _ _) => apply inv_when
  | |- inv _ (if ?b then _ else _) => destruct b
  | |- inv _ (match ?x with _ => _ end) => destruct x
  | |- inv _ _ => leaf
  end.

(** An invariant that ignores the migration-window globals holds across the
    recording of an intermediate address. *)
Lemma inv_record_ipn_mws (I : World -> Prop) m :
  (forall f w, I w -> I (set_mws f w)) -> inv I (record_ipn m).
Proof.
  intros Hmws w Hw. unfold record_ipn.
  destruct (is_migrating _); [|exact Hw].
  destruct (_ <? _); simpl; auto.
Qed.

(** Invariants that do not depend on what a piece of code touches.  [okp]
    tells the pages whose state [I] ignores, [oke] the events it ignores; the
    globals are touched through [record_ipn] only. *)
Section Footprint.
Variable I : World -> Prop.
Variable okp : Z -> Prop.
Variable oke : event -> Prop.
Hypothesis I_adversary : forall f w, I w -> I (set_adversary f w).
Hypothesis I_record_ipn : forall m, inv I (record_ipn m).
Hypothesis I_task : forall f w, I w -> I (set_task f w).
Hypothesis I_page : forall q f w, okp q -> I w -> I (update_page q f w).
Hypothesis I_log : forall e w, oke e -> I w -> I (set_log (cons e) w).

Lemma inv_emit e : oke e -> inv I (emit e).
Proof. intros He. apply inv_modify. intros w. apply I_log, He. Qed.

Lemma inv_trylock_page q : okp q -> inv I (trylock_page q).
Proof.
  intros Hq w Hw. unfold trylock_page.
  destruct (locked _); [exact Hw|].
  destruct (contended _) as [|[] t]; simpl; auto.
Qed.

Lemma inv_lock_page q : okp q -> inv I (lock_page q).
Proof.
  intros Hq w Hw. unfold lock_page. destruct (locked _); simpl; auto.
Qed.

Lemma inv_update_page q f : okp q -> inv I (modify (update_page q f)).
Proof. intros Hq. apply inv_modify. intros w. now apply I_page. Qed.

Lemma inv_record_ipns ms : inv I (record_ipns ms).
Proof.
  induction ms as [|m ms IH]; simpl; [apply inv_ret|].
  apply inv_bind; [apply I_record_ipn | intros _; exact IH].
Qed.

Lemma inv_try_to_unmap q : okp q -> inv I (try_to_unmap q).
Proof.
  intros Hq w Hw. unfold try_to_unmap.
  match goal with
  | |- I (world_of (?m ?w1)) => cut (inv I m); [intros Hm; apply Hm; auto|]
  end.
  apply inv_bind; [apply inv_record_ipns | intros _].
  apply inv_bind; [now apply inv_update_page | intros _; apply inv_ret].
Qed.

Lemma inv_remove_migration_ptes a b : okp a -> okp b -> inv I (remove_migration_ptes a b).
Proof. intros Ha Hb w Hw. unfold remove_migration_ptes. simpl. auto. Qed.

Lemma inv_page_get_anon_vma q : okp q -> inv I (page_get_anon_vma q).
Proof.
  intros Hq w Hw. unfold page_get_anon_vma. destruct (_ && _); simpl; auto.
Qed.

Lemma inv_move_to_new_page np q mode : okp np -> okp q -> inv I (move_to_new_page np q mode).
Proof.
  intros Hn Hq w Hw. unfold move_to_new_page.
  destruct (match move_result _ with [] => _ | r :: _ => r end) as [rc refs].
  destruct (rc =? _); simpl; auto.
Qed.

Lemma inv_VM_BUG_ON_PAGE c : inv I (VM_BUG_ON_PAGE c).
Proof. intros w Hw. unfold VM_BUG_ON_PAGE. destruct (_ && _); exact Hw. Qed.

Ltac inv_leaf :=
  idtac;
  lazymatch goal with
  | |- inv _ (VM_BUG_ON_PAGE _) => apply inv_VM_BUG_ON_PAGE
  | |- inv _ (emit _) => apply inv_emit; solve [auto]
  | |- inv _ (pr_err _) => apply inv_emit; solve [auto]
  | |- inv _ cond_resched => apply inv_emit; solve [auto]
  | |- inv _ (put_new_page_cb _ _) => apply inv_emit; solve [auto]
  | |- inv _ (trylock_page _) => apply inv_trylock_page; solve [auto]
  | |- inv _ (lock_page _) => apply inv_lock_page; solve [auto]
  | |- inv _ (unlock_page _) => apply inv_update_page; solve [auto]
  | |- inv _ (put_anon_vma _) => apply inv_update_page; solve [auto]
  | |- inv _ (set_page_owner_migrate_reason _ _) => apply inv_update_page; solve [auto]
  | |- inv _ (modify (update_page _ _)) => apply inv_update_page; solve [auto]
  | |- inv _ (try_to_unmap _) => apply inv_try_to_unmap; solve [auto]
  | |- inv _ (remove_migration_ptes _ _) => apply inv_remove_migration_ptes; solve [auto]
  | |- inv _ (page_get_anon_vma _) => apply inv_page_get_anon_vma; solve [auto]
  | |- inv _ (move_to_new_page _ _ _) => apply inv_move_to_new_page; solve [auto]
  end.

Lemma inv___unmap_sma_page_lock q force mode :
  okp q -> inv I (__unmap_sma_page_lock q force mode).
Proof. intros Hq. unfold __unmap_sma_page_lock. inv_struct ltac:(idtac; inv_leaf). Qed.

Lemma inv___unmap_sma_page q force mode reason :
  okp q -> (forall s, oke (Ev_pr_err s)) ->
  inv I (__unmap_sma_page q force mode reason).
Proof.
  intros Hq He. unfold __unmap_sma_page.
  inv_struct ltac:(idtac; first [apply inv___unmap_sma_page_lock; exact Hq | inv_leaf]).
Qed.

Lemma inv___move_sma_page q np mode :
  okp q -> okp np -> (forall s, oke (Ev_pr_err s)) ->
  inv I (__move_sma_page q np mode).
Proof. intros Hq Hn He. unfold __move_sma_page. inv_struct ltac:(idtac; inv_leaf). Qed.

Lemma inv_get_new_page q private :
  (forall r, oke (Ev_get_new_page q r)) -> inv I (get_new_page q private).
Proof. intros He w Hw. unfold get_new_page. simpl. auto. Qed.

Lemma inv_put_page q : okp q -> oke (Ev_put_page q) -> inv I (put_page q).
Proof. intros Hq He. unfold put_page. inv_struct ltac:(idtac; inv_leaf). Qed.

Lemma inv_move_sma_page put private q mode reason :
  (forall p, okp p) ->
  (forall s, oke (Ev_pr_err s)) ->
  (forall p r, oke (Ev_get_new_page p r)) ->
  (forall p, oke (Ev_put_new_page p)) ->
  (forall p, oke (Ev_put_page p)) ->
  inv I (move_sma_page put private q mode reason).
Proof.
  intros Hp He Hg Hn Hpp. unfold move_sma_page.
  inv_struct ltac:(idtac; first [ apply inv_get_new_page; solve [auto]
                         | apply inv___move_sma_page; solve [auto]
                         | apply inv_put_page; solve [auto]
                         | inv_leaf ]).
Qed.
End Footprint.

Lemma bind_read {A B} (f : World -> A) (k : A -> M B) w :
  bind (read f) k w = k (f w) w.
Proof. reflexivity. Qed.

Lemma bind_modify {B} (f : World -> World) (k : unit -> M B) w :
  bind (modify f) k w = k tt (f w).
Proof. reflexivity. Qed.

Lemma bind_ret {A B} (a : A) (k : A -> M B) w : bind (ret a) k w = k a w.
Proof. reflexivity. Qed.

Lemma bind_Ret {A B} (m : M A) (k : A -> M B) w a w' :
  m w = Ret a w' -> bind m k w = k a w'.
Proof. unfold bind. now intros ->. Qed.

Lemma bind_Stop {A B} (m : M A) (k : A -> M B) w why w' :
  m w = Stop why w' -> bind m k w = Stop why w'.
Proof. unfold bind. now intros ->. Qed.

Lemma unlink_relink (pg : Z) (l : list Z) :
  NoDup l -> pg ∈ l ->
  NoDup (pg :: filter (fun q => q <> pg) l) /\ pg :: filter (fun q => q <> pg) l ≡ₚ l.
Proof.
  intros Hnd Hin.
  assert (Hnd' : NoDup (pg :: filter (fun q => q <> pg) l)).
  { apply NoDup_cons. split; [|now apply NoDup_filter].
    rewrite list_elem_of_filter. tauto. }
  split; [exact Hnd'|].
  apply NoDup_Permutation; [exact Hnd' | exact Hnd |].
  intros x. rewrite elem_of_cons, list_elem_of_filter.
  destruct (decide (x = pg)) as [->|Hne]; tauto.
Qed.

Lemma partitions_move orig pg head w :
  partitions orig w -> pg ∈ orig ->
  partitions orig (world_of ((list_del pg ;;; list_add pg head) w)).
Proof.
  intros [Hnd Hperm] Hin.
  assert (Hin' : pg ∈ all_pages w) by now rewrite Hperm.
  destruct (unlink_relink pg _ Hnd Hin') as [Hnd' Hperm'].
  unfold all_pages in Hnd', Hperm'. rewrite !filter_app in Hnd', Hperm'.
  unfold partitions, all_pages.
  destruct head; simpl.
  - split; [exact Hnd' | now rewrite Hperm'].
  - rewrite <- !Permutation_middle.
    split; [exact Hnd' | now rewrite Hperm'].
  - rewrite !app_assoc, <- !Permutation_middle, <- !app_assoc.
    split; [exact Hnd' | now rewrite Hperm'].
Qed.

Section Partition.
Variable orig : list Z.

Lemma partitions_emit e : inv (partitions orig) (emit e).
Proof. apply inv_modify. intros w. exact id. Qed.

Lemma partitions_unmap_sma_page pg force mode reason :
  inv (partitions orig) (unmap_sma_page pg force mode reason).
Proof.
  apply inv___unmap_sma_page with (okp := fun _ => True) (oke := fun _ => True);
    try (intros; first [exact Logic.I | assumption]).
  intros m. apply inv_record_ipn_mws. intros f w. exact id.
Qed.

Lemma partitions_move_sma_page put private pg mode reason :
  inv (partitions orig) (move_sma_page put private pg mode reason).
Proof.
  apply inv_move_sma_page with (okp := fun _ => True) (oke := fun _ => True);
    try (intros; first [exact Logic.I | assumption]).
Qed.

Lemma partitions_relink {S} pg head (st : S) :
  pg ∈ orig -> inv (partitions orig) (list_del pg ;;; list_add pg head ;;; ret st).
Proof.
  intros Hin w Hw.
  pose proof (partitions_move orig pg head w Hw Hin) as H.
  unfold bind, list_del, list_add, modify, ret in *. exact H.
Qed.

Lemma partitions_unmap_sma_pages_entry mode reason head st pg :
  pg ∈ orig -> inv (partitions orig) (unmap_sma_pages_entry mode reason head st pg).
Proof.
  intros Hin. unfold unmap_sma_pages_entry, cond_resched, pr_err.
  apply inv_bind; [apply partitions_emit | intros _].
  apply inv_bind; [apply partitions_unmap_sma_page | intros rc].
  destruct (rc =? - EAGAIN).
  { apply inv_bind; [apply inv_read | intros mc].
    apply inv_bind; [apply inv_when, partitions_emit | intros _; apply inv_ret]. }
  destruct (rc =? MIGRATEPAGE_SUCCESS).
  { now apply partitions_relink. }
  apply inv_bind; [apply partitions_emit | intros _; apply inv_ret].
Qed.

Lemma partitions_move_sma_pages_entry put private mode reason head st pg :
  pg ∈ orig -> inv (partitions orig) (move_sma_pages_entry put private mode reason head st pg).
Proof.
  intros Hin. unfold move_sma_pages_entry, cond_resched, pr_err.
  apply inv_bind; [apply partitions_emit | intros _].
  apply inv_bind; [apply partitions_move_sma_page | intros rc].
  destruct (rc =? - EAGAIN); [apply inv_ret|].
  destruct (rc =? MIGRATEPAGE_SUCCESS).
  { now apply partitions_relink. }
  apply inv_bind; [apply partitions_emit | intros _; apply inv_ret].
Qed.

Lemma partitions_walk head (body : loop_vars -> Z -> M loop_vars) st :
  (forall st pg, pg ∈ orig -> inv (partitions orig) (body st pg)) ->
  inv (partitions orig) (list_for_each_entry_safe head body st).
Proof.
  intros Hb w Hw. unfold list_for_each_entry_safe. rewrite bind_read.
  apply (inv_foldM (partitions orig) body (fun pg => pg ∈ orig)); [exact Hb | | exact Hw].
  apply Forall_forall. intros pg Hpg.
  destruct Hw as [_ Hperm]. rewrite <- Hperm. unfold all_pages.
  rewrite !elem_of_app. destruct head; simpl in Hpg; auto.
Qed.

Lemma partitions_unmap_sma_pages from_ mode reason head :
  inv (partitions orig) (unmap_sma_pages from_ mode reason head).
Proof.
  unfold unmap_sma_pages, unmap_sma_pages_loop.
  apply inv_bind; [|intros st; apply inv_ret].
  apply inv_for_passes. intros st. apply partitions_walk.
  intros st' pg. apply partitions_unmap_sma_pages_entry.
Qed.

Lemma partitions_move_sma_pages put private head mode reason moved :
  inv (partitions orig) (move_sma_pages put private head mode reason moved).
Proof.
  unfold move_sma_pages, move_sma_pages_loop.
  apply inv_bind; [|intros st; apply inv_ret].
  apply inv_for_passes. intros st. apply partitions_walk.
  intros st' pg. apply partitions_move_sma_pages_entry.
Qed.
End Partition.

(** Invariants that ignore the pages, the lists, the oracle and the task:
    they hold across a phase when they hold across what the phase records and
    logs. *)
Section Phases.
Variable I : World -> Prop.
Variable oke : event -> Prop.
Hypothesis I_adversary : forall f w, I w -> I (set_adversary f w).
Hypothesis I_task : forall f w, I w -> I (set_task f w).
Hypothesis I_page : forall q f w, I w -> I (update_page q f w).
Hypothesis I_lists : forall f w, I w -> I (set_lists f w).
Hypothesis I_log : forall e w, oke e -> I w -> I (set_log (cons e) w).
Hypothesis oke_pr_err : forall s, oke (Ev_pr_err s).
Hypothesis oke_cond_resched : oke Ev_cond_resched.

Lemma inv_relink {S} pg head (st : S) :
  inv I (list_del pg ;;; list_add pg head ;;; ret st).
Proof.
  unfold list_del, list_add, set_list.
  apply inv_bind; [apply inv_modify; intros w; apply I_lists | intros _].
  apply inv_bind; [apply inv_modify; intros w; apply I_lists | intros _].
  apply inv_ret.
Qed.

Lemma inv_walk {S} head (body : S -> Z -> M S) st :
  (forall st pg, inv I (body st pg)) -> inv I (list_for_each_entry_safe head body st).
Proof.
  intros Hb w Hw. unfold list_for_each_entry_safe. rewrite bind_read.
  apply (inv_foldM I body (fun _ => True)); [auto | | exact Hw].
  apply Forall_forall. auto.
Qed.

Lemma inv_unmap_sma_pages from_ mode reason head :
  (forall m, inv I (record_ipn m)) ->
  inv I (unmap_sma_pages from_ mode reason head).
Proof.
  intros Hrec. unfold unmap_sma_pages, unmap_sma_pages_loop.
  apply inv_bind; [|intros st; apply inv_ret].
  apply inv_for_passes. intros st. apply inv_walk. intros st' pg.
  unfold unmap_sma_pages_entry, cond_resched, pr_err.
  apply inv_bind; [apply inv_emit with (oke := oke); auto | intros _].
  apply inv_bind.
  { unfold unmap_sma_page.
    apply inv___unmap_sma_page with (okp := fun _ => True) (oke := oke); auto. }
  intros rc. destruct (rc =? - EAGAIN).
  { apply inv_bind; [apply inv_read | intros mc].
    apply inv_bind; [apply inv_when, inv_emit with (oke := oke); auto |].
    intros _; apply inv_ret. }
  destruct (rc =? MIGRATEPAGE_SUCCESS); [apply inv_relink|].
  apply inv_bind; [apply inv_emit with (oke := oke); auto | intros _; apply inv_ret].
Qed.

Lemma inv_move_sma_pages put private head mode reason moved :
  (forall p r, oke (Ev_get_new_page p r)) ->
  (forall p, oke (Ev_put_new_page p)) ->
  (forall p, oke (Ev_put_page p)) ->
  inv I (move_sma_pages put private head mode reason moved).
Proof.
  intros Hg Hn Hp. unfold move_sma_pages, move_sma_pages_loop.
  apply inv_bind; [|intros st; apply inv_ret].
  apply inv_for_passes. intros st. apply inv_walk. intros st' pg.
  unfold move_sma_pages_entry, cond_resched, pr_err.
  apply inv_bind; [apply inv_emit with (oke := oke); auto | intros _].
  apply inv_bind.
  { apply inv_move_sma_page with (okp := fun _ => True) (oke := oke); auto. }
  intros rc. destruct (rc =? - EAGAIN); [apply inv_ret|].
  destruct (rc =? MIGRATEPAGE_SUCCESS); [apply inv_relink|].
  apply inv_bind; [apply inv_emit with (oke := oke); auto | intros _; apply inv_ret].
Qed.
End Phases.

(** ** Facts on the page table and the page lock *)

Ltac fields :=
  cbn [is_sec_mem locked writeback anon ksm movable has_private mapping mappings
       migration_ptes refcount anon_vma_refs last_migrate_reason
       with_locked with_maps with_identity with_refcount with_anon_vma_refs with_reason
       negb andb orb when] in *.

Lemma bind_assoc {A B C} (m : M A) (k : A -> M B) (k' : B -> M C) w :
  bind (bind m k) k' w = bind m (fun a => bind (k a) k') w.
Proof. unfold bind. now destruct (m w). Qed.

Lemma bind_when_modify {B} (b : bool) f (k : unit -> M B) w :
  bind (when b (modify f)) k w = k tt (if b then f w else w).
Proof. now destruct b. Qed.

Lemma bind_VM_BUG_ON_PAGE_off {B} c (k : unit -> M B) w :
  config_debug_vm w && c = false -> bind (VM_BUG_ON_PAGE c) k w = k tt w.
Proof. intros H. unfold bind, VM_BUG_ON_PAGE. now rewrite H. Qed.



Lemma page_of_update_eq q f w : page_of (update_page q f w) q = f (page_of w q).
Proof. unfold page_of, update_page. simpl. now rewrite lookup_insert_eq. Qed.

Lemma page_of_update_ne q p f w : q <> p -> page_of (update_page q f w) p = page_of w p.
Proof. intros H. unfold page_of, update_page. simpl. now rewrite lookup_insert_ne. Qed.

Lemma page_mapped_update pg f w :
  mappings (f (page_of w pg)) = mappings (page_of w pg) ->
  page_mapped (update_page pg f w) pg = page_mapped w pg.
Proof. intros H. unfold page_mapped, page_mapcount. now rewrite page_of_update_eq, H. Qed.

Lemma set_adversary_id w : set_adversary (fun o => o) w = w.
Proof. now destruct w. Qed.

(** What taking the lock does (lines 14-35): on success the page is locked
    and nothing else changes but the oracle; on [goto out] nothing changes but
    the oracle; the wait that never ends is the one on a lock this task
    holds. *)
Lemma __unmap_sma_page_lock_spec pg force mode w :
  match __unmap_sma_page_lock pg force mode w with
  | Ret true w1 =>
      locked (page_of w pg) = false /\
      exists f, w1 = update_page pg (with_locked true) (set_adversary f w)
  | Ret false w1 => exists f, w1 = set_adversary f w
  | Stop why w1 => why = DEADLOCK /\ locked (page_of w pg) = true /\ w1 = w
  end.
Proof.
  unfold __unmap_sma_page_lock, bind, trylock_page.
  destruct (locked (page_of w pg)) eqn:Hl.
  - destruct (negb force || is_MIGRATE_ASYNC mode); simpl.
    { exists (fun o => o). now rewrite set_adversary_id. }
    destruct (negb _); simpl.
    { exists (fun o => o). now rewrite set_adversary_id. }
    unfold lock_page. rewrite Hl. auto.
  - destruct (contended (adversary w)) as [|[] t] eqn:Hc; simpl.
    + split; [reflexivity|]. exists (fun o => o). now rewrite set_adversary_id.
    + destruct (negb force || is_MIGRATE_ASYNC mode); simpl; [eauto|].
      destruct (negb _); simpl; [eauto|].
      unfold lock_page. simpl. unfold page_of in *. simpl. rewrite Hl. simpl.
      split; [reflexivity|]. eexists. reflexivity.
    + split; [reflexivity|]. eexists. reflexivity.
Qed.

Lemma trylock_page_held pg w :
  locked (page_of w pg) = true -> trylock_page pg w = Ret false w.
Proof. intros H. unfold trylock_page. now rewrite H. Qed.

Lemma __unmap_sma_page_lock_held pg force mode w :
  locked (page_of w pg) = true ->
  __unmap_sma_page_lock pg force mode w = Ret false w \/
  __unmap_sma_page_lock pg force mode w = Stop DEADLOCK w.
Proof.
  intros H. unfold __unmap_sma_page_lock.
  rewrite (bind_Ret _ _ _ _ _ (trylock_page_held pg w H)).
  destruct (negb force || is_MIGRATE_ASYNC mode); [now left|].
  rewrite bind_read. destruct (negb _); [now left|].
  right. unfold bind, lock_page. now rewrite H.
Qed.

(** ** The per-page unmap *)

Lemma __unmap_sma_page_non_secure pg force mode reason w :
  is_sec_mem (page_of w pg) = false ->
  __unmap_sma_page pg force mode reason w
  = Stop BUG (set_log (cons (Ev_pr_err (Err_non_sma pg))) w).
Proof.
  intros H. unfold __unmap_sma_page. rewrite !bind_read. rewrite H. reflexivity.
Qed.

Lemma __unmap_sma_page_not_locked pg force mode reason w w1 :
  is_sec_mem (page_of w pg) = true ->
  __unmap_sma_page_lock pg force mode w = Ret false w1 ->
  __unmap_sma_page pg force mode reason w = Ret (- EAGAIN) w1.
Proof.
  intros Hs Hl. unfold __unmap_sma_page. rewrite !bind_read, Hs. simpl.
  now rewrite (bind_Ret _ _ _ _ _ Hl).
Qed.

Lemma __unmap_sma_page_lock_wait pg force mode reason w why w1 :
  is_sec_mem (page_of w pg) = true ->
  __unmap_sma_page_lock pg force mode w = Stop why w1 ->
  __unmap_sma_page pg force mode reason w = Stop why w1.
Proof.
  intros Hs Hl. unfold __unmap_sma_page. rewrite !bind_read, Hs. simpl.
  now rewrite (bind_Stop _ _ _ _ _ Hl).
Qed.

Lemma __unmap_sma_page_writeback pg force mode reason w w1 :
  is_sec_mem (page_of w pg) = true ->
  __unmap_sma_page_lock pg force mode w = Ret true w1 ->
  writeback (page_of w1 pg) = true ->
  __unmap_sma_page pg force mode reason w
  = Stop BUG (set_log (cons (Ev_pr_err (Err_disk_cache pg))) w1).
Proof.
  intros Hs Hl Hw. unfold __unmap_sma_page. rewrite !bind_read, Hs. simpl.
  rewrite (bind_Ret _ _ _ _ _ Hl). simpl. rewrite bind_read, Hw. reflexivity.
Qed.

(** A page whose lock this task holds: the attempt fails at the lock, with
    the world as it was, or waits for the lock for ever. *)
Lemma __unmap_sma_page_held pg force mode reason w :
  locked (page_of w pg) = true ->
  is_sec_mem (page_of w pg) = true ->
  __unmap_sma_page pg force mode reason w = Ret (- EAGAIN) w \/
  __unmap_sma_page pg force mode reason w = Stop DEADLOCK w.
Proof.
  intros Hl Hs.
  destruct (__unmap_sma_page_lock_held pg force mode w Hl) as [H|H].
  - left. now apply __unmap_sma_page_not_locked.
  - right. now apply __unmap_sma_page_lock_wait.
Qed.

(** The lock of [pg], once held, stays held through every later attempt of
    the Unmap Phase, on [pg] or on another page. *)
Lemma held_unmap_sma_page pg q force mode reason :
  inv (fun w => locked (page_of w pg) = true) (unmap_sma_page q force mode reason).
Proof.
  destruct (decide (q = pg)) as [->|Hne].
  - intros w Hl. unfold unmap_sma_page.
    destruct (is_sec_mem (page_of w pg)) eqn:Hs.
    + destruct (__unmap_sma_page_held pg force mode reason w Hl Hs) as [-> | ->];
        exact Hl.
    + rewrite __unmap_sma_page_non_secure by exact Hs. exact Hl.
  - unfold unmap_sma_page.
    apply inv___unmap_sma_page with (okp := fun p => p <> pg) (oke := fun _ => True);
      try (intros; first [exact I | assumption]).
    + intros m. apply inv_record_ipn_mws. intros f w. exact id.
    + intros p f w Hp Hl. now rewrite page_of_update_ne.
Qed.

Lemma held_unmap_sma_pages_entry pg mode reason head st q :
  inv (fun w => locked (page_of w pg) = true)
      (unmap_sma_pages_entry mode reason head st q).
Proof.
  unfold unmap_sma_pages_entry, cond_resched, pr_err, emit, list_del, list_add.
  apply inv_bind; [apply inv_modify; intros w; exact id | intros _].
  apply inv_bind; [apply held_unmap_sma_page | intros rc].
  destruct (rc =? - EAGAIN).
  { apply inv_bind; [apply inv_read | intros mc].
    apply inv_bind; [apply inv_when, inv_modify; intros w; exact id|].
    intros _; apply inv_ret. }
  destruct (rc =? MIGRATEPAGE_SUCCESS);
    repeat (apply inv_bind; [apply inv_modify; intros w; exact id | intros _]);
    apply inv_ret.
Qed.

Lemma held_unmap_sma_pages pg from_ mode reason head :
  inv (fun w => locked (page_of w pg) = true) (unmap_sma_pages from_ mode reason head).
Proof.
  unfold unmap_sma_pages, unmap_sma_pages_loop.
  apply inv_bind; [|intros st; apply inv_ret].
  apply inv_for_passes. intros st w Hw.
  unfold list_for_each_entry_safe. rewrite bind_read.
  apply (inv_foldM (fun w => locked (page_of w pg) = true)
           (unmap_sma_pages_entry mode reason head) (fun _ => True));
    [| apply Forall_forall; auto | exact Hw].
  intros st' q _. apply held_unmap_sma_pages_entry.
Qed.

(** The failure of a page that has a NULL mapping and is still mapped
    (lines 66-71, 88-92): -EAGAIN, and the lock stays with this task. *)
Lemma __unmap_sma_page_null_mapping_mapped pg force mode reason w w1 :
  is_sec_mem (page_of w pg) = true ->
  writeback (page_of w pg) = false ->
  movable (page_of w pg) = false ->
  mapping (page_of w pg) = 0 ->
  page_mapped w pg = true ->
  config_debug_vm w && (anon (page_of w pg) || has_private (page_of w pg)) = false ->
  __unmap_sma_page_lock pg force mode w = Ret true w1 ->
  exists w', __unmap_sma_page pg force mode reason w = Ret (- EAGAIN) w' /\
             locked (page_of w' pg) = true.
Proof.
  intros Hs Hwb Hmv Hmp Hmapped Hdbg Hl.
  pose proof (__unmap_sma_page_lock_spec pg force mode w) as Hspec.
  rewrite Hl in Hspec. destruct Hspec as [Hfree [f ->]].
  assert (Hda : config_debug_vm w && anon (page_of w pg) = false).
  { destruct (config_debug_vm w), (anon (page_of w pg)); auto. }
  assert (Hdp : config_debug_vm w && has_private (page_of w pg) = false).
  { destruct (config_debug_vm w), (anon (page_of w pg)), (has_private (page_of w pg)); auto. }
  unfold __unmap_sma_page. rewrite !bind_read, Hs, Hmv. fields.
  rewrite (bind_Ret _ _ _ _ _ Hl). fields.
  set (w1 := update_page pg (with_locked true) (set_adversary f w)).
  assert (Hp1 : page_of w1 pg = with_locked true (page_of w pg)).
  { unfold w1. now rewrite page_of_update_eq. }
  assert (Hm1 : page_mapped w1 pg = true).
  { unfold w1. now rewrite page_mapped_update. }
  rewrite bind_read, Hp1. fields. rewrite Hwb.
  rewrite bind_read, Hp1. fields.
  destruct (anon (page_of w pg) && negb (ksm (page_of w pg))) eqn:Ha.
  - apply andb_true_iff in Ha as [Ha _].
    unfold bind at 1, page_get_anon_vma at 1. rewrite Hp1. fields. rewrite Ha, Hm1. fields.
    match goal with |- context [bind _ _ ?w] => set (w2 := w) end.
    assert (Hp2 : page_of w2 pg
                  = with_anon_vma_refs (anon_vma_refs (page_of w pg) + 1)
                      (with_locked true (page_of w pg))).
    { unfold w2. now rewrite page_of_update_eq, Hp1. }
    assert (Hm2 : page_mapped w2 pg = true).
    { unfold w2. now rewrite page_mapped_update. }
    rewrite bind_read, Hp2. fields. rewrite Hmp. change (0 =? 0) with true. cbv iota.
    rewrite bind_assoc.
    rewrite bind_read, Hp2. fields.
    rewrite bind_assoc, bind_VM_BUG_ON_PAGE_off by exact Hda.
    rewrite bind_assoc, bind_read, Hp2. fields.
    rewrite bind_assoc, bind_VM_BUG_ON_PAGE_off by exact Hdp.
    rewrite bind_assoc, bind_read, Hm2. fields. rewrite bind_ret.
    eexists. split; [reflexivity|].
    rewrite page_of_update_eq, Hp2. reflexivity.
  - rewrite bind_ret.
    rewrite bind_read, Hp1. fields. rewrite Hmp. change (0 =? 0) with true. cbv iota.
    rewrite bind_assoc.
    rewrite bind_read, Hp1. fields.
    rewrite bind_assoc, bind_VM_BUG_ON_PAGE_off by exact Hda.
    rewrite bind_assoc, bind_read, Hp1. fields.
    rewrite bind_assoc, bind_VM_BUG_ON_PAGE_off by exact Hdp.
    rewrite bind_assoc, bind_read, Hm1. fields. rewrite bind_ret.
    eexists. split; [reflexivity|]. rewrite Hp1. reflexivity.
Qed.

(** The failure of [try_to_unmap] (lines 81-85) releases the lock. *)
Lemma __unmap_sma_page_mapped_failure pg force mode reason w w1 rc w' :
  is_sec_mem (page_of w pg) = true ->
  mapping (page_of w pg) <> 0 ->
  page_mapped w pg = true ->
  __unmap_sma_page_lock pg force mode w = Ret true w1 ->
  __unmap_sma_page pg force mode reason w = Ret rc w' ->
  rc = - EAGAIN ->
  locked (page_of w' pg) = false.
Proof.
  intros Hs Hmp Hmapped Hl.
  pose proof (__unmap_sma_page_lock_spec pg force mode w) as Hspec.
  rewrite Hl in Hspec. destruct Hspec as [Hfree [f ->]].
  unfold __unmap_sma_page. rewrite !bind_read, Hs. fields.
  rewrite (bind_Ret _ _ _ _ _ Hl). fields.
  set (w1 := update_page pg (with_locked true) (set_adversary f w)).
  assert (Hp1 : mapping (page_of w1 pg) = mapping (page_of w pg)).
  { unfold w1. now rewrite page_of_update_eq. }
  assert (Hm1 : page_mapped w1 pg = true).
  { unfold w1. now rewrite page_mapped_update. }
  clearbody w1. clear Hl.
  rewrite bind_read. destruct (writeback _); [discriminate|].
  rewrite bind_read.
  assert (Hgen : forall (b : bool) w2,
            mapping (page_of w2 pg) = mapping (page_of w pg) ->
            page_mapped w2 pg = true ->
            (mapping_ <- read (fun w0 => mapping (page_of w0 pg)) ;;
             rc <- (if mapping_ =? 0 then
                      a <- read (fun w0 => anon (page_of w0 pg)) ;;
                      VM_BUG_ON_PAGE a ;;;
                      p <- read (fun w0 => has_private (page_of w0 pg)) ;;
                      VM_BUG_ON_PAGE p ;;;
                      mapped <- read (fun w0 => page_mapped w0 pg) ;;
                      if negb mapped then ret MIGRATEPAGE_SUCCESS else ret (- EAGAIN)
                    else
                      mapped <- read (fun w0 => page_mapped w0 pg) ;;
                      if mapped then
                        c <- read (fun w0 => anon (page_of w0 pg) && negb (ksm (page_of w0 pg))
                                             && negb b) ;;
                        VM_BUG_ON_PAGE c ;;;
                        is_unmapped <- try_to_unmap pg ;;
                        if is_unmapped then ret MIGRATEPAGE_SUCCESS
                        else remove_migration_ptes pg pg ;;; unlock_page pg ;;; ret (- EAGAIN)
                      else ret (- EAGAIN)) ;;
             when b (put_anon_vma pg) ;;; ret rc) w2 = Ret rc w' ->
            rc = - EAGAIN -> locked (page_of w' pg) = false).
  { intros b w2 Hp2 Hm2. rewrite bind_read, Hp2.
    destruct (mapping (page_of w pg) =? 0) eqn:E; [apply Z.eqb_eq in E; contradiction|].
    rewrite bind_assoc, bind_read, Hm2. cbv iota.
    rewrite bind_assoc, bind_read, bind_assoc.
    lazymatch goal with
    | |- bind ?m _ ?w = _ -> _ =>
        destruct (m w) as [[] w3|? w3] eqn:Hv;
        [rewrite (bind_Ret _ _ _ _ _ Hv) | now rewrite (bind_Stop _ _ _ _ _ Hv)]
    end.
    rewrite bind_assoc.
    destruct (try_to_unmap pg w3) as [[] w4|? w4] eqn:Ht;
      [rewrite (bind_Ret _ _ _ _ _ Ht) .. | now rewrite (bind_Stop _ _ _ _ _ Ht)].
    - rewrite bind_ret. intros Hr ->.
      destruct b; inversion Hr.
    - intros Hr _. destruct b; inversion Hr; subst w'; clear Hr.
      + rewrite !page_of_update_eq. reflexivity.
      + rewrite !page_of_update_eq. reflexivity. }
  destruct (anon (page_of w1 pg) && negb (ksm (page_of w1 pg))) eqn:Ha.
  - unfold bind at 1, page_get_anon_vma at 1.
    apply andb_true_iff in Ha as [Ha _]. rewrite Ha, Hm1. fields.
    destruct (negb (negb (movable (page_of w pg)))); [discriminate|].
    apply (Hgen true).
    + now rewrite page_of_update_eq.
    + now rewrite page_mapped_update.
  - rewrite bind_ret.
    destruct (negb (negb (movable (page_of w pg)))); [discriminate|].
    apply (Hgen false); assumption.
Qed.

(** ** The retry loops *)

Lemma returns_ret {A} (P : A -> Prop) a : P a -> returns P (ret a).
Proof. intros H w a' w' E. now inversion E; subst. Qed.

Lemma returns_bind {A B} (P : B -> Prop) (m : M A) (k : A -> M B) :
  (forall a, returns P (k a)) -> returns P (bind m k).
Proof.
  intros Hk w b w'. unfold bind.
  destruct (m w) as [a w1|]; [apply Hk | discriminate].
Qed.

Lemma returns_foldM {S} (P : S -> Prop) (body : S -> Z -> M S) l :
  (forall st x, P st -> returns P (body st x)) ->
  forall st, P st -> returns P (foldM body st l).
Proof.
  intros Hb. induction l as [|x l IH]; intros st Hst; simpl.
  - now apply returns_ret.
  - intros w st' w'. unfold bind.
    destruct (body st x w) as [st1 w1|] eqn:E; [|discriminate].
    apply IH. exact (Hb st x Hst w st1 w1 E).
Qed.

Ltac returns_struct :=
  repeat lazymatch goal with
  | |- returns _ (bind _ _) => apply returns_bind; intros ?
  | |- returns _ (if ?b then _ else _) => destruct b
  | |- returns _ (ret _) => apply returns_ret
  end.

(** The walks leave the pass counter alone. *)
Lemma unmap_sma_pages_entry_pass mode reason head p st pg :
  pass st = p -> returns (fun st' => pass st' = p) (unmap_sma_pages_entry mode reason head st pg).
Proof. intros H. unfold unmap_sma_pages_entry. returns_struct; exact H. Qed.

Lemma move_sma_pages_entry_pass put private mode reason head p st pg :
  pass st = p ->
  returns (fun st' => pass st' = p) (move_sma_pages_entry put private mode reason head st pg).
Proof. intros H. unfold move_sma_pages_entry. returns_struct; exact H. Qed.

Lemma walk_pass head (body : loop_vars -> Z -> M loop_vars) p st :
  (forall st x, pass st = p -> returns (fun st' => pass st' = p) (body st x)) ->
  pass st = p ->
  returns (fun st' => pass st' = p) (list_for_each_entry_safe head body st).
Proof.
  intros Hb Hst w st' w'. unfold list_for_each_entry_safe. rewrite bind_read.
  apply (returns_foldM (fun st' => pass st' = p) body _ Hb st Hst).
Qed.

(** A loop whose body leaves the pass counter alone runs the body at most
    [10 - pass] times: more fuel changes nothing, and the counter ends at 10
    at most. *)
Lemma for_passes_enough (body : loop_vars -> M loop_vars) :
  (forall st, returns (fun st' => pass st' = pass st) (body st)) ->
  forall n st w,
    (Z.to_nat (10 - pass st) <= n)%nat ->
    for_passes body (S n) st w = for_passes body n st w.
Proof.
  intros Hb. induction n as [|n IH]; intros st w Hn.
  - simpl. destruct (pass st <? 10) eqn:E; [|reflexivity].
    apply Z.ltb_lt in E. lia.
  - change (for_passes body (S (S n)) st w)
      with ((if (pass st <? 10) && negb (retry st =? 0)
             then st' <- body (with_retry 0 st) ;; for_passes body (S n) (next_pass st')
             else ret st) w).
    change (for_passes body (S n) st w)
      with ((if (pass st <? 10) && negb (retry st =? 0)
             then st' <- body (with_retry 0 st) ;; for_passes body n (next_pass st')
             else ret st) w).
    destruct ((pass st <? 10) && negb (retry st =? 0)); [|reflexivity].
    unfold bind. destruct (body (with_retry 0 st) w) as [st1 w1|] eqn:E; [|reflexivity].
    apply IH. apply Hb in E. simpl in *. lia.
Qed.

Lemma for_passes_bound (body : loop_vars -> M loop_vars) :
  (forall st, returns (fun st' => pass st' = pass st) (body st)) ->
  forall n st, pass st <= 10 ->
    returns (fun st' => pass st <= pass st' <= 10) (for_passes body n st).
Proof.
  intros Hb. induction n as [|n IH]; intros st Hst w st' w'; simpl.
  - intros E. inversion E; subst. lia.
  - destruct (pass st <? 10) eqn:Elt; simpl.
    2:{ intros E. inversion E; subst. lia. }
    destruct (negb (retry st =? 0)); simpl.
    2:{ intros E. inversion E; subst. lia. }
    unfold bind. destruct (body (with_retry 0 st) w) as [st1 w1|] eqn:E; [|discriminate].
    apply Hb in E. simpl in E. apply Z.ltb_lt in Elt.
    intros E2. apply IH in E2; simpl in *; lia.
Qed.

(** Both phases make at most ten passes. *)
Lemma unmap_sma_pages_loop_bound from_ mode reason head :
  returns (fun st => 0 <= pass st <= 10) (unmap_sma_pages_loop from_ mode reason head).
Proof.
  unfold unmap_sma_pages_loop. intros w st w' E.
  apply for_passes_bound in E; simpl in *; [lia | | lia].
  intros st0. apply walk_pass; [|reflexivity].
  intros st1 x. apply unmap_sma_pages_entry_pass.
Qed.

Lemma move_sma_pages_loop_bound put private head mode reason moved :
  returns (fun st => 0 <= pass st <= 10)
          (move_sma_pages_loop put private head mode reason moved).
Proof.
  unfold move_sma_pages_loop. intros w st w' E.
  apply for_passes_bound in E; simpl in *; [lia | | lia].
  intros st0. apply walk_pass; [|reflexivity].
  intros st1 x. apply move_sma_pages_entry_pass.
Qed.

(** ** Counting the supply and release calls *)

Lemma count_events_cons f e l :
  count_events f (e :: l) = count_events f l + (if f e then 1 else 0).
Proof.
  unfold count_events. simpl. destruct (f e); simpl length; lia.
Qed.

(** The calls made so far, as a triple. *)
Lemma calls_frame pg (a b c : Z) :
  let I := fun w => n_get pg w = a /\ n_put_new_page w = b /\ n_put_page w = c in
  forall q np mode, inv I (__move_sma_page q np mode).
Proof.
  intros I q np mode.
  apply inv___move_sma_page
    with (okp := fun _ => True)
         (oke := fun e => match e with Ev_pr_err _ => True | _ => False end);
    try (intros; first [exact Logic.I | assumption]).
  intros e w He [H1 [H2 H3]]. destruct e; try contradiction.
  unfold I, n_get, n_put_new_page, n_put_page in *. simpl.
  rewrite !count_events_cons. simpl. repeat split; lia.
Qed.

Lemma move_sma_page_calls pg put private q mode reason w rc w' :
  move_sma_page put private q mode reason w = Ret rc w' ->
  n_get pg w' = n_get pg w + (if q =? pg then 1 else 0) /\
  n_put_new_page w' = n_put_new_page w + (if put && (rc =? - EAGAIN) then 1 else 0) /\
  n_put_page w' = n_put_page w + (if negb put && (rc =? - EAGAIN) then 1 else 0).
Proof.
  unfold move_sma_page. unfold bind at 1, get_new_page at 1. cbv beta iota zeta.
  set (r := match supply (adversary w) with [] => None | r :: _ => r end).
  match goal with
  | |- context [set_log _ ?v] => set (w0 := set_log (cons (Ev_get_new_page q r)) v)
  end.
  assert (H0 : n_get pg w0 = n_get pg w + (if q =? pg then 1 else 0) /\
               n_put_new_page w0 = n_put_new_page w /\ n_put_page w0 = n_put_page w).
  { unfold w0, n_get, n_put_new_page, n_put_page. simpl.
    rewrite !count_events_cons. simpl. repeat split; lia. }
  clearbody w0. destruct H0 as [Hg [Hn Hp]]. rewrite <- Hg, <- Hn, <- Hp. clear Hg Hn Hp.
  destruct r as [np|].
  - unfold bind at 1.
    pose proof (calls_frame pg (n_get pg w0) (n_put_new_page w0) (n_put_page w0) q np mode
                  w0 (conj eq_refl (conj eq_refl eq_refl))) as Hf.
    destruct (__move_sma_page q np mode w0) as [rc1 w1|]; [|discriminate].
    simpl in Hf. destruct Hf as [Hg [Hn Hp]]. rewrite <- Hg, <- Hn, <- Hp. clear Hg Hn Hp.
    destruct (rc1 =? MIGRATEPAGE_SUCCESS) eqn:E0.
    + apply Z.eqb_eq in E0. subst rc1.
      cbv beta iota zeta delta [bind when set_page_owner_migrate_reason modify read ret].
      destruct (negb _).
      * discriminate.
      * intros E. inversion E; subst. change (0 =? - EAGAIN) with false.
        rewrite !andb_false_r. unfold n_get, n_put_new_page, n_put_page. simpl. lia.
    + destruct (rc1 =? - EAGAIN) eqn:E1.
      * destruct put;
          cbv beta iota zeta delta [bind when put_new_page_cb put_page emit modify read ret];
          intros E; inversion E; subst; rewrite E1;
          unfold n_get, n_put_new_page, n_put_page; simpl;
          rewrite !count_events_cons; simpl; lia.
      * cbv beta iota zeta delta [bind when pr_err emit modify read ret].
        intros E; inversion E; subst; rewrite E1, !andb_false_r.
        unfold n_get, n_put_new_page, n_put_page; simpl;
          rewrite !count_events_cons; simpl; lia.
  - cbv beta iota zeta delta [bind when pr_err emit modify read ret].
    intros E; inversion E; subst. change (- ENOMEM =? - EAGAIN) with false.
    rewrite !andb_false_r.
    unfold n_get, n_put_new_page, n_put_page; simpl;
      rewrite !count_events_cons; simpl; lia.
Qed.

Lemma move_sma_pages_entry_calls pg put private mode reason moved st q w st' w' :
  move_sma_pages_entry put private mode reason moved st q w = Ret st' w' ->
  n_get pg w' = n_get pg w + (if q =? pg then 1 else 0) /\
  n_put_new_page w' = n_put_new_page w + (if put then retry st' - retry st else 0) /\
  n_put_page w' = n_put_page w + (if put then 0 else retry st' - retry st).
Proof.
  unfold move_sma_pages_entry, cond_resched, emit. rewrite bind_modify.
  set (w0 := set_log (cons Ev_cond_resched) w).
  assert (H0 : n_get pg w0 = n_get pg w /\
               n_put_new_page w0 = n_put_new_page w /\ n_put_page w0 = n_put_page w).
  { unfold w0, n_get, n_put_new_page, n_put_page. simpl.
    rewrite !count_events_cons. simpl. repeat split; lia. }
  clearbody w0. destruct H0 as [Hg [Hn Hp]]. rewrite <- Hg, <- Hn, <- Hp. clear Hg Hn Hp.
  unfold bind at 1.
  destruct (move_sma_page put private q mode reason w0) as [rc w1|] eqn:E; [|discriminate].
  destruct (move_sma_page_calls pg _ _ _ _ _ _ _ _ E) as [Hg [Hn Hp]]. clear E.
  destruct (rc =? - EAGAIN) eqn:E1.
  - intros E; inversion E; subst. simpl. rewrite andb_true_r in Hn, Hp.
    destruct put; simpl in *; repeat split; lia.
  - rewrite !andb_false_r in *. destruct (rc =? MIGRATEPAGE_SUCCESS);
      cbv beta iota zeta delta [bind list_del list_add pr_err emit modify ret];
      intros E; inversion E; subst;
      unfold n_get, n_put_new_page, n_put_page in *; simpl in *;
      rewrite ?count_events_cons; simpl; destruct put; repeat split; lia.
Qed.

Lemma move_walk_calls pg put private mode reason moved l :
  NoDup l -> forall st w st' w',
  foldM (move_sma_pages_entry put private mode reason moved) st l w = Ret st' w' ->
  n_get pg w' = n_get pg w + (if bool_decide (pg ∈ l) then 1 else 0) /\
  n_put_new_page w' = n_put_new_page w + (if put then retry st' - retry st else 0) /\
  n_put_page w' = n_put_page w + (if put then 0 else retry st' - retry st).
Proof.
  induction 1 as [|q l Hq Hnd IH]; intros st w st' w'; simpl.
  - intros E; inversion E; subst. destruct put; repeat split; lia.
  - unfold bind.
    destruct (move_sma_pages_entry put private mode reason moved st q w)
      as [st1 w1|] eqn:E; [|discriminate].
    intros E2. apply IH in E2. destruct E2 as [Hg [Hn Hp]].
    destruct (move_sma_pages_entry_calls pg _ _ _ _ _ _ _ _ _ _ E) as [Hg1 [Hn1 Hp1]].
    rewrite Hg, Hn, Hp, Hg1, Hn1, Hp1.
    split; [|destruct put; split; lia].
    destruct (Z.eqb_spec q pg) as [->|Hne].
    + rewrite (bool_decide_eq_false_2 (pg ∈ l)) by exact Hq.
      rewrite bool_decide_eq_true_2 by apply list_elem_of_here. lia.
    + destruct (bool_decide (pg ∈ l)) eqn:Ein.
      * apply bool_decide_eq_true_1 in Ein.
        rewrite bool_decide_eq_true_2 by now apply list_elem_of_further. lia.
      * apply bool_decide_eq_false_1 in Ein.
        rewrite bool_decide_eq_false_2; [lia|].
        rewrite elem_of_cons. intros [->|]; tauto.
Qed.

(** ** The migration window and the monitor request *)


Lemma smc_requests_quiet e w :
  is_smc e = false -> smc_requests (set_log (cons e) w) = smc_requests w.
Proof. intros H. unfold smc_requests. simpl. destruct e; try reflexivity. discriminate. Qed.




(** ** The claims *)

(** C1.  The claim fails on the code at [contention_world]: page 1 stays
    locked by another task during all ten passes and page 2 is unlocked on the
    tenth.  [unmap_sma_pages] returns the code of the last page it handled,
    which is page 2 and a success, so it returns 0 with page 1 still on the
    pending list; [migrate_sma_pages] then issues the monitor call and returns
    0. *)
Theorem unmap_residual_goes_unreported :
  let phase := unmap_sma_pages From MIGRATE_ASYNC 0 Unmapped_head contention_world in
  let run := migrate_sma_pages true (SecMemCache 11) MIGRATE_ASYNC 0 contention_world in
  result_of phase = Some 0 /\
  lists (world_of phase) = Lists [1] [2] [] /\
  result_of run = Some 0 /\
  lists (world_of run) = Lists [1] [] [2] /\
  length (smc_requests (world_of run)) = 1%nat.
Proof. vm_compute. repeat split. Qed.

(** C2.  Throughout [migrate_sma_pages] the lists pending ([from]), unmapped
    and moved partition the input batch: each iteration of the unmap walk and
    of the move walk keeps every page of the batch on exactly one list, and
    so does the whole call, whatever its outcome (return, [BUG()], or a lock
    wait that never ends).  In particular, after an abort the moved list and
    the residual lists together are the original pending set. *)
Theorem migrate_sma_pages_partition put private mode reason w :
  NoDup (from (lists w)) ->
  (forall mode' reason' head st pg, pg ∈ from (lists w) ->
     inv (partitions (from (lists w)))
         (unmap_sma_pages_entry mode' reason' head st pg)) /\
  (forall put' private' mode' reason' head st pg, pg ∈ from (lists w) ->
     inv (partitions (from (lists w)))
         (move_sma_pages_entry put' private' mode' reason' head st pg)) /\
  partitions (from (lists w)) (world_of (migrate_sma_pages put private mode reason w)).
Proof.
  intros Hnd. split; [|split].
  - intros. now apply partitions_unmap_sma_pages_entry.
  - intros. now apply partitions_move_sma_pages_entry.
  - set (orig := from (lists w)).
    unfold migrate_sma_pages, INIT_LIST_HEAD.
    rewrite !bind_read, !bind_modify.
    match goal with |- partitions _ (world_of (?m ?w0)) =>
      cut (inv (partitions orig) m);
      [intros Hm; apply Hm; unfold partitions, all_pages; simpl;
       rewrite !app_nil_r; split; [exact Hnd | reflexivity] |]
    end.
    unfold local_irq_disable, local_irq_enable, set_current_flags, smc.
    inv_struct ltac:(idtac; lazymatch goal with
      | |- inv _ (modify _) => apply inv_modify; intros ?; exact id
      | |- inv _ (emit _) => apply partitions_emit
      | |- inv _ (pr_err _) => apply partitions_emit
      | |- inv _ (unmap_sma_pages _ _ _ _) => apply partitions_unmap_sma_pages
      | |- inv _ (move_sma_pages _ _ _ _ _ _) => apply partitions_move_sma_pages
      end).
Qed.

Lemma migrate_sma_pages_partition_witness :
  partitions [1; 2; 3; 4]
    (world_of (migrate_sma_pages true (SecMemCache 11) MIGRATE_SYNC 0
                 (boot [(1, guest_page 7 100); (2, guest_page 7 101);
                        (3, guest_page 7 102); (4, guest_page 7 103)]
                       [1; 2; 3; 4] (Oracle [] [] [] [])))).
Proof.
  refine (proj2 (proj2 (migrate_sma_pages_partition true (SecMemCache 11) MIGRATE_SYNC 0
            (boot [(1, guest_page 7 100); (2, guest_page 7 101);
                   (3, guest_page 7 102); (4, guest_page 7 103)]
                  [1; 2; 3; 4] (Oracle [] [] [] [])) _))).
  apply (bool_decide_unpack _). vm_compute. exact I.
Defined.

(** C3.  The claim fails on the code at [busy_world]: the only page stays
    locked by another task, the Unmap Phase fails with -EAGAIN, and
    [migrate_sma_pages] leaves through [goto out], which skips the line that
    clears [is_migrating]: the flag is still true at the return.  No monitor
    call was issued. *)
Theorem is_migrating_survives_abort :
  let run := migrate_sma_pages true (SecMemCache 11) MIGRATE_ASYNC 0 busy_world in
  result_of run = Some (- EAGAIN) /\
  is_migrating (mws (world_of run)) = true /\
  smc_requests (world_of run) = [].
Proof. vm_compute. repeat split. Qed.







(** C6.  The claim fails on the code at [short_supply_world]: the supplier
    has no page for page 4, the first page the Move Phase visits.  Page 4
    fails with -ENOMEM, is asked for once and stays on the unmapped list, the
    other three pages reach the moved list; but [move_sma_pages] returns the
    code of the last page it handled, a success, and [migrate_sma_pages]
    returns 0: the failed page is not reported. *)
Theorem supply_failure_goes_unreported :
  let run := migrate_sma_pages true (SecMemCache 11) MIGRATE_SYNC 0 short_supply_world in
  result_of run = Some 0 /\
  lists (world_of run) = Lists [] [4] [1; 2; 3] /\
  n_get 4 (world_of run) = 1 /\
  count_events (fun e => match e with
                         | Ev_pr_err (Err_move_invalid_rc rc _ _ pfn) =>
                             (rc =? - ENOMEM) && (pfn =? 4)
                         | _ => false
                         end) (log (world_of run)) = 1.
Proof. vm_compute. repeat split. Qed.




(** C8.  The claim fails on the code.  At [contention_world] the unmap loop
    makes its ten passes and ends with a page left ([retry] is 1, page 1 is
    still pending), yet its result is 0; at [move_contention_world] the move
    loop does the same.  And a page that kept its lock on a failure (a NULL
    mapping, still mapped) makes a later pass of a blocking mode wait for that
    lock for ever: the loop does not end. *)
Theorem retry_loops_miss_batch_failure :
  let unmap := unmap_sma_pages_loop From MIGRATE_ASYNC 0 Unmapped_head contention_world in
  let move := move_sma_pages_loop true (SecMemCache 11) Unmapped_head
                MIGRATE_SYNC_NO_COPY 0 Moved_head move_contention_world in
  let wait := unmap_sma_pages_loop From MIGRATE_SYNC 0 Unmapped_head
                (boot [(1, orphan_page 7 100)] [1] (Oracle [] [] [] [])) in
  locals_of unmap = Some (LoopVars 1 1 10 0) /\
  lists (world_of unmap) = Lists [1] [2] [] /\
  locals_of move = Some (LoopVars 1 1 10 0) /\
  lists (world_of move) = Lists [] [1] [2] /\
  stopped wait = Some DEADLOCK.
Proof. vm_compute. repeat split. Qed.

(** C9.  The Unmap Phase raises a fatal invariant violation ([BUG()]) for a
    page that is not secure memory and for a page found under writeback.  For
    the non-secure page it comes first of all: no page state and no list has
    changed, and no lock was tried (the oracle is untouched); only the error
    line is logged.  This holds for [__unmap_sma_page] and for the iteration
    of the walk that reaches the page.  For the writeback page it comes at the
    check that follows the taking of the page lock; an attempt that does not
    get the lock returns -EAGAIN with the page and the lists untouched (or
    waits for the lock), so that a page under writeback never leaves the
    pending list. *)
Theorem unmap_rejects_unsupported_pages :
  (forall pg force mode reason w,
     is_sec_mem (page_of w pg) = false ->
     exists w', __unmap_sma_page pg force mode reason w = Stop BUG w' /\
                pages w' = pages w /\ lists w' = lists w /\
                adversary w' = adversary w /\
                log w' = Ev_pr_err (Err_non_sma pg) :: log w) /\
  (forall mode reason head st pg w,
     is_sec_mem (page_of w pg) = false ->
     exists w', unmap_sma_pages_entry mode reason head st pg w = Stop BUG w' /\
                pages w' = pages w /\ lists w' = lists w /\
                adversary w' = adversary w) /\
  (forall pg force mode reason w w1,
     is_sec_mem (page_of w pg) = true ->
     writeback (page_of w pg) = true ->
     __unmap_sma_page_lock pg force mode w = Ret true w1 ->
     __unmap_sma_page pg force mode reason w
     = Stop BUG (set_log (cons (Ev_pr_err (Err_disk_cache pg))) w1)) /\
  (forall pg force mode reason w rc w',
     is_sec_mem (page_of w pg) = true ->
     writeback (page_of w pg) = true ->
     __unmap_sma_page pg force mode reason w = Ret rc w' ->
     rc = - EAGAIN /\ pages w' = pages w /\ lists w' = lists w).
Proof.
  assert (Hwb : forall pg force mode reason w w1,
            is_sec_mem (page_of w pg) = true ->
            writeback (page_of w pg) = true ->
            __unmap_sma_page_lock pg force mode w = Ret true w1 ->
            __unmap_sma_page pg force mode reason w
            = Stop BUG (set_log (cons (Ev_pr_err (Err_disk_cache pg))) w1)).
  { intros pg force mode reason w w1 Hs Hwb Hl.
    apply __unmap_sma_page_writeback; [exact Hs | exact Hl |].
    pose proof (__unmap_sma_page_lock_spec pg force mode w) as Hspec.
    rewrite Hl in Hspec. destruct Hspec as [_ [f ->]].
    now rewrite page_of_update_eq. }
  split; [|split; [|split]].
  - intros pg force mode reason w H. eexists. split.
    + now apply __unmap_sma_page_non_secure.
    + now repeat split.
  - intros mode reason head st pg w H. eexists. split.
    + unfold unmap_sma_pages_entry, cond_resched, emit. rewrite bind_modify.
      apply bind_Stop. unfold unmap_sma_page.
      apply __unmap_sma_page_non_secure. exact H.
    + now repeat split.
  - exact Hwb.
  - intros pg force mode reason w rc w' Hs Hw.
    pose proof (__unmap_sma_page_lock_spec pg force mode w) as Hspec.
    destruct (__unmap_sma_page_lock pg force mode w) as [[] w1|why w1] eqn:Hl.
    + rewrite (Hwb _ _ _ reason _ _ Hs Hw Hl). discriminate.
    + rewrite (__unmap_sma_page_not_locked _ _ _ reason _ _ Hs Hl).
      destruct Hspec as [f ->]. intros E. inversion E; subst. now repeat split.
    + rewrite (__unmap_sma_page_lock_wait _ _ _ reason _ _ _ Hs Hl). discriminate.
Qed.

Lemma unmap_rejects_unsupported_pages_witness :
  (exists w', __unmap_sma_page 1 false MIGRATE_SYNC 0
                (boot [(1, normal_page)] [1] (Oracle [] [] [] [])) = Stop BUG w' /\
              lists w' = Lists [1] [] []) /\
  __unmap_sma_page 2 false MIGRATE_SYNC 0
    (boot [(2, writeback_page)] [2] (Oracle [] [] [] []))
  = Stop BUG (set_log (cons (Ev_pr_err (Err_disk_cache 2)))
                (update_page 2 (with_locked true)
                   (boot [(2, writeback_page)] [2] (Oracle [] [] [] [])))).
Proof.
  split.
  - destruct (proj1 unmap_rejects_unsupported_pages 1 false MIGRATE_SYNC 0
                (boot [(1, normal_page)] [1] (Oracle [] [] [] [])) eq_refl)
      as [w' [H1 [_ [H2 _]]]].
    exists w'. split; [exact H1 | exact H2].
  - apply (proj1 (proj2 (proj2 unmap_rejects_unsupported_pages))); reflexivity.
Defined.

(** C10.  A page with a NULL mapping that is still mapped makes
    [__unmap_sma_page] return -EAGAIN with the page lock still held; the
    lock then stays held through every later iteration of the unmap walk and
    through the rest of the Unmap Phase, and [trylock_page] fails on a page
    whose lock is held; the failure of
    [try_to_unmap], in contrast, returns -EAGAIN with the lock released.  The
    premises say that the code reaches line 66: the page is secure memory, its
    lock was taken, it is not under writeback, it is not a movable page, and
    no [VM_BUG_ON_PAGE] fires (CONFIG_DEBUG_VM is off, or the page is neither
    anonymous nor has private data). *)
Theorem unmap_null_mapping_keeps_lock pg force mode reason w w1 :
  is_sec_mem (page_of w pg) = true ->
  writeback (page_of w pg) = false ->
  movable (page_of w pg) = false ->
  config_debug_vm w && (anon (page_of w pg) || has_private (page_of w pg)) = false ->
  __unmap_sma_page_lock pg force mode w = Ret true w1 ->
  mapping (page_of w pg) = 0 ->
  page_mapped w pg = true ->
  (exists w', __unmap_sma_page pg force mode reason w = Ret (- EAGAIN) w' /\
              locked (page_of w' pg) = true) /\
  (forall mode' reason' head st q,
     inv (fun w2 => locked (page_of w2 pg) = true)
         (unmap_sma_pages_entry mode' reason' head st q)) /\
  (forall from_ mode' reason' head,
     inv (fun w2 => locked (page_of w2 pg) = true)
         (unmap_sma_pages from_ mode' reason' head)) /\
  (forall w2, locked (page_of w2 pg) = true -> trylock_page pg w2 = Ret false w2) /\
  (forall q force' mode' reason' v v1 rc v',
     is_sec_mem (page_of v q) = true ->
     mapping (page_of v q) <> 0 ->
     page_mapped v q = true ->
     __unmap_sma_page_lock q force' mode' v = Ret true v1 ->
     __unmap_sma_page q force' mode' reason' v = Ret rc v' ->
     rc = - EAGAIN ->
     locked (page_of v' q) = false).
Proof.
  intros Hs Hwb Hmv Hdbg Hl Hmp Hmapped. split; [|split; [|split; [|split]]].
  - now apply __unmap_sma_page_null_mapping_mapped with (w1 := w1).
  - intros. apply held_unmap_sma_pages_entry.
  - intros. apply held_unmap_sma_pages.
  - intros w2 H. now apply trylock_page_held.
  - intros q force' mode' reason' v v1 rc v'. apply __unmap_sma_page_mapped_failure.
Qed.

Lemma unmap_null_mapping_keeps_lock_witness :
  exists w', __unmap_sma_page 1 false MIGRATE_ASYNC 0
               (boot [(1, orphan_page 7 100)] [1] (Oracle [] [] [] []))
             = Ret (- EAGAIN) w' /\
             locked (page_of w' 1) = true.
Proof.
  refine (proj1 (unmap_null_mapping_keeps_lock 1 false MIGRATE_ASYNC 0
            (boot [(1, orphan_page 7 100)] [1] (Oracle [] [] [] []))
            (update_page 1 (with_locked true)
               (boot [(1, orphan_page 7 100)] [1] (Oracle [] [] [] [])))
            _ _ _ _ _ _ _)); reflexivity.
Defined.

(** ** Further properties of the code *)

Lemma returns_bind_strong {A B} (Q : A -> Prop) (P : B -> Prop) (m : M A) (k : A -> M B) :
  returns Q m -> (forall a, Q a -> returns P (k a)) -> returns P (bind m k).
Proof.
  intros Hm Hk w b w'. unfold bind.
  destruct (m w) as [a w1|] eqn:E; [|discriminate].
  apply (Hk a (Hm _ _ _ E)).
Qed.

Lemma bind_Ret_inv {A B} (m : M A) (k : A -> M B) w b w' :
  bind m k w = Ret b w' -> exists a w1, m w = Ret a w1 /\ k a w1 = Ret b w'.
Proof.
  unfold bind. destruct (m w) as [a w1|]; [eauto | discriminate].
Qed.

Lemma inv_Ret {A} (I : World -> Prop) (m : M A) w a w' :
  inv I m -> I w -> m w = Ret a w' -> I w'.
Proof. intros Hm Hw E. specialize (Hm w Hw). now rewrite E in Hm. Qed.

(** *** The per-page unmap *)

(** The codes that reach the switch of [unmap_sma_pages]. *)
Lemma unmap_sma_page_rc pg force mode reason :
  returns (fun rc => rc = MIGRATEPAGE_SUCCESS \/ rc = - EAGAIN)
          (unmap_sma_page pg force mode reason).
Proof.
  unfold unmap_sma_page, __unmap_sma_page.
  apply returns_bind; intros is_lru. apply returns_bind; intros sec.
  destruct (negb sec).
  { apply returns_bind; intros _. intros w a w' E. discriminate. }
  apply returns_bind; intros held.
  destruct (negb held); [apply returns_ret; now right|].
  apply returns_bind; intros wb. destruct wb.
  { apply returns_bind; intros _. intros w a w' E. discriminate. }
  apply returns_bind; intros is_anon. apply returns_bind; intros anon_vma.
  destruct (negb is_lru).
  { apply returns_bind; intros _. intros w a w' E. discriminate. }
  apply returns_bind; intros mapping_.
  apply returns_bind_strong with (Q := fun rc => rc = MIGRATEPAGE_SUCCESS \/ rc = - EAGAIN).
  - destruct (mapping_ =? 0); returns_struct; auto.
  - intros rc Hrc. returns_struct. exact Hrc.
Qed.

(** X1.  When [__unmap_sma_page] returns, it returns MIGRATEPAGE_SUCCESS or
    -EAGAIN and nothing else: the [default] branch of the switch in
    [unmap_sma_pages] (lines 135-139) is never taken. *)
Theorem __unmap_sma_page_codes pg force mode reason :
  returns (fun rc => rc = MIGRATEPAGE_SUCCESS \/ rc = - EAGAIN)
          (__unmap_sma_page pg force mode reason).
Proof. exact (unmap_sma_page_rc pg force mode reason). Qed.

(** X2.  [__unmap_sma_page] works on its own page only: whatever the
    outcome, the state of every other page, the three lists and the task
    flags are as before. *)
Theorem __unmap_sma_page_footprint pg force mode reason w p :
  p <> pg ->
  let w' := world_of (__unmap_sma_page pg force mode reason w) in
  page_of w' p = page_of w p /\ lists w' = lists w /\ task w' = task w.
Proof.
  intros Hp w'. subst w'.
  apply (inv___unmap_sma_page
           (fun v => page_of v p = page_of w p /\ lists v = lists w /\ task v = task w)
           (fun q => q <> p) (fun _ => True)); try (intros; exact I).
  all: try (intros f v H; exact H).
  - intros m. apply inv_record_ipn_mws. intros f v H. exact H.
  - intros q f v Hq [H1 H2]. split; [|exact H2].
    now rewrite page_of_update_ne.
  - intros e v _ H. exact H.
  - congruence.
  - now repeat split.
Qed.

Lemma __unmap_sma_page_footprint_witness :
  page_of (world_of (__unmap_sma_page 1 false MIGRATE_SYNC 0 contention_world)) 2
  = guest_page 7 101.
Proof.
  refine (eq_trans
            (proj1 (__unmap_sma_page_footprint 1 false MIGRATE_SYNC 0 contention_world 2 _))
            _).
  - discriminate.
  - reflexivity.
Defined.

Lemma record_ipns_pages ms w w' :
  record_ipns ms w = Ret tt w' -> pages w' = pages w.
Proof.
  revert w. induction ms as [|m ms IH]; intros w; simpl.
  - intros E. now inversion E.
  - intros E. apply bind_Ret_inv in E as [[] [w1 [E1 E2]]].
    rewrite (IH _ E2). unfold record_ipn in E1.
    destruct (is_migrating (mws w)); [|now inversion E1].
    destruct (_ <? _); [now inversion E1 | discriminate].
Qed.

(** What [try_to_unmap] does to its page: the lock and everything but the
    mappings stay; it reports success exactly when no mapping is left. *)
Lemma try_to_unmap_spec pg w b w' :
  try_to_unmap pg w = Ret b w' ->
  locked (page_of w' pg) = locked (page_of w pg) /\
  (b = true <-> mappings (page_of w' pg) = []) /\
  (b = true <-> page_mapped w' pg = false).
Proof.
  unfold try_to_unmap. cbv zeta.
  set (left := match unmap_left (adversary w) with [] => O | n :: _ => n end).
  set (w1 := set_adversary _ w).
  intros E. apply bind_Ret_inv in E as [[] [w2 [E1 E2]]].
  apply record_ipns_pages in E1.
  rewrite bind_modify in E2. inversion E2; subst b w'; clear E2.
  assert (Hp : page_of w2 pg = page_of w pg).
  { unfold page_of. rewrite E1. reflexivity. }
  rewrite page_of_update_eq, Hp. fields.
  change (page_of w1 pg) with (page_of w pg).
  unfold page_mapped, page_mapcount. rewrite page_of_update_eq, Hp. fields.
  destruct (take left (mappings (page_of w pg))) as [|x l]; simpl.
  - repeat split; auto.
  - repeat split; try discriminate; try (intros H; lia).
Qed.

Lemma page_get_anon_vma_spec pg w b w' :
  page_get_anon_vma pg w = Ret b w' ->
  locked (page_of w' pg) = locked (page_of w pg) /\
  page_mapped w' pg = page_mapped w pg /\
  config_debug_vm w' = config_debug_vm w.
Proof.
  unfold page_get_anon_vma. destruct (_ && _); intros E; inversion E; subst; auto.
  rewrite page_of_update_eq, page_mapped_update by reflexivity. auto.
Qed.

Lemma VM_BUG_ON_PAGE_Ret c w u w' : VM_BUG_ON_PAGE c w = Ret u w' -> w' = w.
Proof.
  unfold VM_BUG_ON_PAGE. destruct (_ && _); intros E; now inversion E.
Qed.

(** X3.  A page that [__unmap_sma_page] reports as unmapped is locked by the
    migrating task and has no mapping left: the lock taken at lines 14-35 is
    kept on the success path, for the Move Phase to release. *)
Theorem __unmap_sma_page_success pg force mode reason w rc w' :
  __unmap_sma_page pg force mode reason w = Ret rc w' ->
  rc = MIGRATEPAGE_SUCCESS ->
  locked (page_of w' pg) = true /\ page_mapped w' pg = false.
Proof.
  unfold __unmap_sma_page. rewrite !bind_read.
  destruct (negb (is_sec_mem (page_of w pg))); [discriminate|].
  intros E. apply bind_Ret_inv in E as [held [w1 [El E]]].
  pose proof (__unmap_sma_page_lock_spec pg force mode w) as Hspec.
  rewrite El in Hspec.
  destruct held; cbn [negb] in E; [|inversion E; discriminate].
  destruct Hspec as [_ [f ->]].
  set (w1 := update_page pg (with_locked true) (set_adversary f w)) in *.
  assert (Hl1 : locked (page_of w1 pg) = true).
  { unfold w1. now rewrite page_of_update_eq. }
  clearbody w1. clear El.
  rewrite bind_read in E. destruct (writeback (page_of w1 pg)); [discriminate|].
  rewrite bind_read in E.
  apply bind_Ret_inv in E as [anon_vma [w2 [Ea E]]].
  assert (H2 : locked (page_of w2 pg) = true /\ page_mapped w2 pg = page_mapped w1 pg).
  { destruct (anon (page_of w1 pg) && negb (ksm (page_of w1 pg))).
    - apply page_get_anon_vma_spec in Ea as [-> [-> _]]. auto.
    - inversion Ea; subst. auto. }
  destruct H2 as [Hl2 _]. clear Ea.
  destruct (negb (negb (movable (page_of w pg)))); [discriminate|].
  rewrite bind_read in E.
  apply bind_Ret_inv in E as [rc1 [w3 [Er E]]].
  assert (Hfin : locked (page_of w' pg) = locked (page_of w3 pg) /\
                 page_mapped w' pg = page_mapped w3 pg /\ rc = rc1).
  { destruct anon_vma; cbn [when] in E.
    - unfold put_anon_vma in E. rewrite bind_modify in E. inversion E; subst.
      rewrite page_of_update_eq, page_mapped_update by reflexivity. auto.
    - inversion E; subst. auto. }
  destruct Hfin as [-> [-> ->]]. clear E. intros ->.
  destruct (mapping (page_of w2 pg) =? 0).
  - rewrite bind_read in Er.
    apply bind_Ret_inv in Er as [[] [v1 [Ev Er]]].
    apply VM_BUG_ON_PAGE_Ret in Ev. subst v1.
    rewrite bind_read in Er.
    apply bind_Ret_inv in Er as [[] [v1 [Ev Er]]].
    apply VM_BUG_ON_PAGE_Ret in Ev. subst v1.
    rewrite bind_read in Er.
    destruct (page_mapped w2 pg) eqn:Hm; cbn [negb] in Er; inversion Er; subst.
    auto.
  - rewrite bind_read in Er. destruct (page_mapped w2 pg); [|inversion Er; discriminate].
    rewrite bind_read in Er.
    apply bind_Ret_inv in Er as [[] [v1 [Ev Er]]].
    apply VM_BUG_ON_PAGE_Ret in Ev. subst v1.
    apply bind_Ret_inv in Er as [b [v2 [Et Er]]].
    apply try_to_unmap_spec in Et as [Hlk [_ Hmp]].
    destruct b.
    + inversion Er; subst. split; [congruence | now apply Hmp].
    + unfold unlock_page in Er. unfold bind, remove_migration_ptes, modify, ret in Er.
      inversion Er; discriminate.
Qed.

Lemma __unmap_sma_page_success_witness :
  let w' := world_of (__unmap_sma_page 1 false MIGRATE_SYNC 0 calm_world) in
  locked (page_of w' 1) = true /\ page_mapped w' 1 = false.
Proof.
  refine (__unmap_sma_page_success 1 false MIGRATE_SYNC 0 calm_world
            MIGRATEPAGE_SUCCESS _ _ eq_refl).
  vm_compute. reflexivity.
Defined.

(** *** The Unmap Phase *)

Lemma unmap_sma_page_lists pg force mode reason w rc w' :
  unmap_sma_page pg force mode reason w = Ret rc w' -> lists w' = lists w.
Proof.
  intros E.
  refine (inv_Ret (fun v => lists v = lists w) _ _ _ _ _ eq_refl E).
  unfold unmap_sma_page.
  apply inv___unmap_sma_page with (okp := fun _ => True) (oke := fun _ => True);
    try (intros; exact I); try (intros f v H; exact H).
  - intros m. apply inv_record_ipn_mws. intros f v H. exact H.
  - intros q f v _ H. exact H.
  - intros e v _ H. exact H.
Qed.

(** One iteration of the unmap walk: the page is retried later and the lists
    stay, or the page leaves the pending list. *)
Lemma unmap_sma_pages_entry_step mode reason st pg w st' w' :
  unmap_sma_pages_entry mode reason Unmapped_head st pg w = Ret st' w' ->
  (retry st' = retry st + 1 /\ lists w' = lists w) \/
  (retry st' = retry st /\
   from (lists w') = filter (fun q => q <> pg) (from (lists w))).
Proof.
  unfold unmap_sma_pages_entry, cond_resched, emit. rewrite bind_modify.
  intros E. apply bind_Ret_inv in E as [rc [w1 [Eu E]]].
  pose proof (unmap_sma_page_lists _ _ _ _ _ _ _ Eu) as Hl. simpl in Hl.
  destruct (unmap_sma_page_rc _ _ _ _ _ _ _ Eu) as [-> | ->].
  - change (MIGRATEPAGE_SUCCESS =? - EAGAIN) with false in E.
    change (MIGRATEPAGE_SUCCESS =? MIGRATEPAGE_SUCCESS) with true in E.
    cbv iota in E. unfold list_del, list_add in E.
    rewrite !bind_modify in E. inversion E; subst. right.
    split; [reflexivity|]. simpl. now rewrite Hl.
  - change (- EAGAIN =? - EAGAIN) with true in E. cbv iota in E.
    rewrite bind_read in E. apply bind_Ret_inv in E as [[] [w2 [Ew E]]].
    inversion E; subst. left. split; [reflexivity|].
    unfold when, pr_err, emit in Ew.
    destruct (_ =? 10); inversion Ew; subst; exact Hl.
Qed.

Lemma unmap_walk_step mode reason l : forall st w st' w',
  foldM (unmap_sma_pages_entry mode reason Unmapped_head) st l w = Ret st' w' ->
  retry st <= retry st' /\
  (forall x, x ∈ from (lists w') -> x ∈ from (lists w)) /\
  (retry st' = retry st -> forall x, x ∈ l -> x ∉ from (lists w')).
Proof.
  induction l as [|y l IH]; intros st w st' w'; simpl.
  - intros E. inversion E; subst. repeat split; [lia | auto |].
    intros _ x Hx. inversion Hx.
  - intros E. apply bind_Ret_inv in E as [st1 [w1 [E1 E2]]].
    apply IH in E2 as [Hle [Hsub Hgone]].
    apply unmap_sma_pages_entry_step in E1.
    assert (Hsub1 : forall x, x ∈ from (lists w1) -> x ∈ from (lists w)).
    { destruct E1 as [[_ ->] | [_ ->]]; [auto|].
      intros x Hx. apply list_elem_of_filter in Hx. tauto. }
    repeat split.
    + destruct E1 as [[E1 _] | [E1 _]]; lia.
    + auto.
    + intros Heq x Hx.
      destruct E1 as [[E1 _] | [E1 Hf]]; [lia|].
      apply elem_of_cons in Hx as [-> | Hx].
      * intros Hin. apply Hsub in Hin. rewrite Hf in Hin.
        apply list_elem_of_filter in Hin. tauto.
      * apply Hgone; [lia | exact Hx].
Qed.

Lemma for_passes_exit (body : loop_vars -> M loop_vars) :
  (forall st, returns (fun st' => pass st' = pass st) (body st)) ->
  forall n st, (Z.to_nat (10 - pass st) <= n)%nat ->
    returns (fun st' => (pass st' <? 10) && negb (retry st' =? 0) = false)
            (for_passes body n st).
Proof.
  intros Hb. induction n as [|n IH]; intros st Hn w st' w'; simpl.
  - intros E. inversion E; subst.
    destruct (pass st' <? 10) eqn:El; [apply Z.ltb_lt in El; lia | reflexivity].
  - destruct ((pass st <? 10) && negb (retry st =? 0)) eqn:Ec.
    + unfold bind. destruct (body (with_retry 0 st) w) as [st1 w1|] eqn:E; [|discriminate].
      apply Hb in E. simpl in E. apply IH. simpl.
      apply andb_true_iff in Ec as [Ec _]. apply Z.ltb_lt in Ec. lia.
    + intros E. inversion E; subst. exact Ec.
Qed.

Lemma for_passes_drained (body : loop_vars -> M loop_vars) (P : World -> Prop) :
  (forall st w st' w', body st w = Ret st' w' -> retry st = 0 ->
                       0 <= retry st' /\ (retry st' = 0 -> P w')) ->
  forall n st w st' w',
    for_passes body n st w = Ret st' w' ->
    0 <= retry st -> (retry st = 0 -> P w) ->
    0 <= retry st' /\ (retry st' = 0 -> P w').
Proof.
  intros Hb. induction n as [|n IH]; intros st w st' w'; simpl.
  - intros E. inversion E; subst. auto.
  - destruct ((pass st <? 10) && negb (retry st =? 0)).
    + intros E H0 HP. apply bind_Ret_inv in E as [st1 [w1 [E1 E2]]].
      apply Hb in E1 as [H1 H2]; [|reflexivity].
      apply (IH _ _ _ _ E2); simpl; auto.
    + intros E. inversion E; subst. auto.
Qed.

(** X4.  At the exit of the retry loop of [unmap_sma_pages] the local
    [retry] tells whether pages remain: it is 0 only if the pending list is
    empty, and when it is not 0 the loop has made all ten passes.  At least
    one pass is made, and no page comes onto the pending list. *)
Theorem unmap_sma_pages_loop_exit mode reason w st w' :
  unmap_sma_pages_loop From mode reason Unmapped_head w = Ret st w' ->
  1 <= pass st <= 10 /\
  0 <= retry st /\
  (retry st = 0 -> from (lists w') = []) /\
  (retry st <> 0 -> pass st = 10) /\
  (forall x, x ∈ from (lists w') -> x ∈ from (lists w)).
Proof.
  intros E.
  assert (Hpass : forall st0,
            returns (fun st' => pass st' = pass st0)
              (list_for_each_entry_safe From
                 (unmap_sma_pages_entry mode reason Unmapped_head) st0)).
  { intros st0. apply walk_pass; [|reflexivity].
    intros st1 x. apply unmap_sma_pages_entry_pass. }
  assert (Hwalk : forall st0 v st1 v1,
            list_for_each_entry_safe From
              (unmap_sma_pages_entry mode reason Unmapped_head) st0 v = Ret st1 v1 ->
            retry st0 <= retry st1 /\
            (forall x, x ∈ from (lists v1) -> x ∈ from (lists v)) /\
            (retry st1 = retry st0 -> from (lists v1) = [])).
  { intros st0 v st1 v1 Ew. unfold list_for_each_entry_safe in Ew.
    rewrite bind_read in Ew. apply unmap_walk_step in Ew as [Hle [Hsub Hgone]].
    repeat split; auto. intros Heq.
    destruct (from (lists v1)) as [|x l] eqn:Ef; [reflexivity|].
    exfalso. apply (Hgone Heq x).
    - apply Hsub. rewrite ?Ef. apply list_elem_of_here.
    - rewrite ?Ef. apply list_elem_of_here. }
  unfold unmap_sma_pages_loop in E.
  assert (Hexit := for_passes_exit _ Hpass 10 (LoopVars 1 0 0 MIGRATEPAGE_SUCCESS)
                     ltac:(simpl; lia) _ _ _ E).
  assert (Hbound := for_passes_bound _ Hpass 10 (LoopVars 1 0 0 MIGRATEPAGE_SUCCESS)
                      ltac:(simpl; lia) _ _ _ E).
  simpl in Hbound.
  assert (Hdr : 0 <= retry st /\ (retry st = 0 -> from (lists w') = [])).
  { refine (for_passes_drained _ (fun v => from (lists v) = []) _ _ _ _ _ _ E _ _);
      simpl; [|lia|lia].
    intros st0 v st1 v1 Ew H0. apply Hwalk in Ew as [Hle [_ Hg]].
    split; [lia|]. intros H1. apply Hg. lia. }
  assert (Hsub : forall x, x ∈ from (lists w') -> x ∈ from (lists w)).
  { clear Hexit Hbound Hdr. revert E. generalize 10%nat.
    generalize (LoopVars 1 0 0 MIGRATEPAGE_SUCCESS). intros st0 n. revert st0 w.
    induction n as [|n IH]; intros st0 v; simpl.
    - intros E. inversion E; subst. auto.
    - destruct (_ && _).
      + intros E. apply bind_Ret_inv in E as [st1 [v1 [E1 E2]]].
        apply Hwalk in E1 as [_ [Hs _]]. intros x Hx. apply Hs.
        exact (IH _ _ E2 x Hx).
      + intros E. inversion E; subst. auto. }
  assert (H1 : 1 <= pass st).
  { change (for_passes _ 10 _ w) with
      ((st' <- list_for_each_entry_safe From
                 (unmap_sma_pages_entry mode reason Unmapped_head)
                 (with_retry 0 (LoopVars 1 0 0 MIGRATEPAGE_SUCCESS)) ;;
        for_passes (list_for_each_entry_safe From
                      (unmap_sma_pages_entry mode reason Unmapped_head))
                   9 (next_pass st')) w) in E.
    apply bind_Ret_inv in E as [st1 [v1 [E1 E2]]].
    apply Hpass in E1. simpl in E1.
    apply (for_passes_bound _ Hpass) in E2; simpl in *; lia. }
  destruct Hdr as [Hr0 Hdr].
  repeat split; auto; try lia.
  intros Hne. apply andb_false_iff in Hexit as [Hx | Hx].
  - apply Z.ltb_ge in Hx. lia.
  - apply negb_false_iff, Z.eqb_eq in Hx. contradiction.
Qed.

Lemma unmap_sma_pages_loop_exit_witness :
  from (lists (world_of (unmap_sma_pages_loop From MIGRATE_SYNC 0 Unmapped_head
                           calm_world))) = [].
Proof.
  refine (proj1 (proj2 (proj2 (unmap_sma_pages_loop_exit MIGRATE_SYNC 0 calm_world
                                 (LoopVars 0 2 1 0) _ _))) eq_refl).
  vm_compute. reflexivity.
Defined.

(** *** The cost of the phases *)

Lemma length_filter_le (pg : Z) (l : list Z) :
  (length (filter (fun q => q <> pg) l) <= length l)%nat.
Proof.
  induction l as [|x l IH]; [reflexivity|].
  rewrite filter_cons. destruct (decide (x <> pg)); simpl; lia.
Qed.

Lemma walk_cost (body : loop_vars -> Z -> M loop_vars) (cnt len : World -> Z) l :
  (forall st x w, cnt (world_of (body st x w)) <= cnt w + 1 /\
                  len (world_of (body st x w)) <= len w) ->
  forall st w,
    cnt (world_of (foldM body st l w)) <= cnt w + Z.of_nat (length l) /\
    len (world_of (foldM body st l w)) <= len w.
Proof.
  intros Hb. induction l as [|x l IH]; intros st w.
  - simpl. lia.
  - cbn [foldM]. unfold bind. specialize (Hb st x w).
    destruct (body st x w) as [st1 w1|why w1]; simpl in Hb.
    + specialize (IH st1 w1). simpl length. lia.
    + simpl. simpl length. lia.
Qed.

Lemma for_passes_cost (body : loop_vars -> M loop_vars) (cnt len : World -> Z) :
  (forall st, returns (fun st' => pass st' = pass st) (body st)) ->
  (forall w, 0 <= len w) ->
  (forall st w, cnt (world_of (body st w)) <= cnt w + len w /\
                len (world_of (body st w)) <= len w) ->
  forall n st w, pass st <= 10 ->
    cnt (world_of (for_passes body n st w)) <= cnt w + (10 - pass st) * len w /\
    len (world_of (for_passes body n st w)) <= len w.
Proof.
  intros Hp Hlen Hb. induction n as [|n IH]; intros st w Hst.
  - simpl. pose proof (Hlen w). nia.
  - cbn [for_passes].
    destruct (pass st <? 10) eqn:El; cbn [andb].
    2:{ simpl. pose proof (Hlen w). nia. }
    destruct (negb (retry st =? 0)).
    2:{ simpl. pose proof (Hlen w). nia. }
    apply Z.ltb_lt in El. unfold bind. specialize (Hb (with_retry 0 st) w).
    destruct (body (with_retry 0 st) w) as [st1 w1|why w1] eqn:E; simpl in Hb.
    + apply Hp in E. simpl in E.
      specialize (IH (next_pass st1) w1). simpl in IH.
      pose proof (Hlen w). pose proof (Hlen w1). nia.
    + simpl. pose proof (Hlen w). nia.
Qed.

Lemma count_quiet f e w :
  f e = false -> count_events f (log (set_log (cons e) w)) = count_events f (log w).
Proof. intros H. simpl. rewrite count_events_cons, H. lia. Qed.

(** X5.  Whatever the outcome, the Unmap Phase makes at most ten iterations
    per page of the pending list it is given, and the pending list does not
    grow. *)
Theorem unmap_sma_pages_cost mode reason w :
  let w' := world_of (unmap_sma_pages From mode reason Unmapped_head w) in
  n_iterations w' <= n_iterations w + 10 * pending w /\
  pending w' <= pending w.
Proof.
  intros w'. subst w'. unfold unmap_sma_pages.
  assert (H : forall o : outcome loop_vars,
            world_of ((st <- (fun _ => o) ;; ret (rc_ st)) w) = world_of o).
  { intros [a v|why v]; reflexivity. }
  change (world_of ((st <- unmap_sma_pages_loop From mode reason Unmapped_head ;;
                     ret (rc_ st)) w))
    with (world_of ((st <- (fun _ => unmap_sma_pages_loop From mode reason Unmapped_head w) ;;
                     ret (rc_ st)) w)).
  rewrite H. clear H. unfold unmap_sma_pages_loop.
  refine (for_passes_cost _ n_iterations pending _ _ _ 10
            (LoopVars 1 0 0 MIGRATEPAGE_SUCCESS) w _); [| | |simpl; lia].
  - intros st0. apply walk_pass; [|reflexivity].
    intros st1 x. apply unmap_sma_pages_entry_pass.
  - intros v. unfold pending. lia.
  - intros st v. unfold list_for_each_entry_safe. rewrite bind_read.
    apply (walk_cost _ n_iterations pending). clear st v.
    intros st x v.
    set (J := fun a L u => n_iterations u = a /\ pending u <= L).
    cut (J (n_iterations v + 1) (pending v)
           (world_of (unmap_sma_pages_entry mode reason Unmapped_head st x v))).
    { unfold J. lia. }
    unfold unmap_sma_pages_entry, cond_resched, emit. rewrite bind_modify.
    match goal with |- J ?a ?L (world_of (?m ?v0)) =>
      cut (inv (J a L) m); [intros Hm; apply Hm|]
    end.
    { unfold J, n_iterations, pending. simpl. rewrite count_events_cons. simpl. lia. }
    assert (Hlog : forall e, is_cond_resched e = false ->
                     inv (J (n_iterations v + 1) (pending v)) (emit e)).
    { intros e He. apply inv_modify. intros u [H1 H2]. split; [|exact H2].
      unfold n_iterations. now rewrite count_quiet. }
    apply inv_bind.
    { unfold unmap_sma_page.
      apply inv___unmap_sma_page
        with (okp := fun _ => True)
             (oke := fun e => is_cond_resched e = false);
        try (intros; first [exact I | reflexivity]); try (intros f u Hu; exact Hu).
      - intros m. apply inv_record_ipn_mws. intros f u Hu. exact Hu.
      - intros q f u _ Hu. exact Hu.
      - intros e u He [H1 H2]. split; [|exact H2].
        unfold n_iterations. now rewrite count_quiet. }
    intros rc. destruct (rc =? - EAGAIN).
    { apply inv_bind; [apply inv_read | intros mc].
      apply inv_bind; [apply inv_when, Hlog; reflexivity | intros _; apply inv_ret]. }
    destruct (rc =? MIGRATEPAGE_SUCCESS).
    { unfold list_del, list_add.
      apply inv_bind; [|intros _; apply inv_bind; [|intros _; apply inv_ret]];
        apply inv_modify; intros u [H1 H2]; (split; [exact H1|]).
      - unfold pending in *. simpl.
        pose proof (length_filter_le x (from (lists u))). lia.
      - exact H2. }
    apply inv_bind; [apply Hlog; reflexivity | intros _; apply inv_ret].
Qed.

(** One call of [move_sma_page] calls [get_new_page] once, whatever its
    outcome, and leaves the three lists alone. *)
Lemma move_sma_page_supply_once put private pg mode reason w :
  let w' := world_of (move_sma_page put private pg mode reason w) in
  n_supply w' = n_supply w + 1 /\ lists w' = lists w.
Proof.
  intros w'. subst w'. unfold move_sma_page.
  unfold bind at 1, get_new_page at 1. cbv beta iota zeta.
  set (r := match supply (adversary w) with [] => None | r :: _ => r end).
  set (J := fun u => n_supply u = n_supply w + 1 /\ lists u = lists w).
  match goal with |- context [world_of (?m ?v0)] =>
    change (J (world_of (m v0))); cut (inv J m); [intros Hm; apply Hm|]
  end.
  { unfold J, n_supply. simpl. rewrite count_events_cons. simpl. split; [lia|reflexivity]. }
  assert (Hlog : forall e, is_supply e = false -> inv J (emit e)).
  { intros e He. apply inv_modify. intros u [H1 H2]. split; [|exact H2].
    unfold n_supply in *. now rewrite count_quiet. }
  destruct r as [np|].
  - apply inv_bind.
    { apply inv___move_sma_page
        with (okp := fun _ => True) (oke := fun e => is_supply e = false);
        try (intros; first [exact I | reflexivity]); try (intros f u Hu; exact Hu).
      - intros q f u _ Hu. exact Hu.
      - intros e u He [H1 H2]. split; [|exact H2].
        unfold n_supply in *. now rewrite count_quiet. }
    intros rc.
    unfold set_page_owner_migrate_reason, put_new_page_cb, put_page, pr_err.
    inv_struct ltac:(idtac; lazymatch goal with
      | |- inv _ (modify _) => apply inv_modify; intros u Hu; exact Hu
      | |- inv _ (emit _) => apply Hlog; reflexivity
      end).
  - unfold pr_err.
    inv_struct ltac:(idtac; lazymatch goal with
      | |- inv _ (emit _) => apply Hlog; reflexivity
      end).
Qed.

(** X6.  Whatever the outcome, the Move Phase calls [get_new_page] at most
    ten times per page of the unmapped list it is given, and the unmapped
    list does not grow. *)
Theorem move_sma_pages_cost put private mode reason w :
  let w' := world_of (move_sma_pages put private Unmapped_head mode reason Moved_head w) in
  n_supply w' <= n_supply w + 10 * unmapped w /\
  unmapped w' <= unmapped w.
Proof.
  intros w'. subst w'. unfold move_sma_pages.
  assert (H : forall o : outcome loop_vars,
            world_of ((st <- (fun _ => o) ;; ret (rc_ st)) w) = world_of o).
  { intros [a v|why v]; reflexivity. }
  change (world_of ((st <- move_sma_pages_loop put private Unmapped_head mode reason
                              Moved_head ;; ret (rc_ st)) w))
    with (world_of ((st <- (fun _ => move_sma_pages_loop put private Unmapped_head mode
                                       reason Moved_head w) ;; ret (rc_ st)) w)).
  rewrite H. clear H. unfold move_sma_pages_loop.
  refine (for_passes_cost _ n_supply unmapped _ _ _ 10
            (LoopVars 1 0 0 MIGRATEPAGE_SUCCESS) w _); [| | |simpl; lia].
  - intros st0. apply walk_pass; [|reflexivity].
    intros st1 x. apply move_sma_pages_entry_pass.
  - intros v. unfold unmapped. lia.
  - intros st v. unfold list_for_each_entry_safe. rewrite bind_read.
    apply (walk_cost _ n_supply unmapped). clear st v.
    intros st x v.
    unfold move_sma_pages_entry, cond_resched, emit. rewrite bind_modify.
    set (v0 := set_log (cons Ev_cond_resched) v).
    assert (H0 : n_supply v0 = n_supply v /\ lists v0 = lists v).
    { unfold v0, n_supply. simpl. rewrite count_events_cons. simpl. split; [lia|reflexivity]. }
    clearbody v0. destruct H0 as [Hn Hl].
    cut (n_supply (world_of
                     ((rc <- move_sma_page put private x mode reason ;;
                       if rc =? - EAGAIN
                       then ret (LoopVars (retry st + 1) (nr_succeeded st) (pass st) rc)
                       else if rc =? MIGRATEPAGE_SUCCESS
                       then list_del x ;;; list_add x Moved_head ;;;
                            ret (LoopVars (retry st) (nr_succeeded st + 1) (pass st) rc)
                       else pr_err (Err_move_invalid_rc rc (nr_succeeded st) (retry st)
                                      (page_to_pfn x)) ;;;
                            ret (LoopVars (retry st) (nr_succeeded st) (pass st) rc)) v0))
         <= n_supply v0 + 1 /\
         unmapped (world_of
                     ((rc <- move_sma_page put private x mode reason ;;
                       if rc =? - EAGAIN
                       then ret (LoopVars (retry st + 1) (nr_succeeded st) (pass st) rc)
                       else if rc =? MIGRATEPAGE_SUCCESS
                       then list_del x ;;; list_add x Moved_head ;;;
                            ret (LoopVars (retry st) (nr_succeeded st + 1) (pass st) rc)
                       else pr_err (Err_move_invalid_rc rc (nr_succeeded st) (retry st)
                                      (page_to_pfn x)) ;;;
                            ret (LoopVars (retry st) (nr_succeeded st) (pass st) rc)) v0))
         <= unmapped v0).
    { unfold unmapped. rewrite Hn, Hl. tauto. }
    clear Hn Hl v.
    pose proof (move_sma_page_supply_once put private x mode reason v0) as Hm.
    destruct (move_sma_page put private x mode reason v0) as [rc v1|why v1] eqn:E;
      simpl in Hm; destruct Hm as [Hn1 Hl1].
    2:{ rewrite (bind_Stop _ _ _ _ _ E). simpl. unfold unmapped. rewrite Hl1. lia. }
    rewrite (bind_Ret _ _ _ _ _ E).
    destruct (rc =? - EAGAIN).
    { simpl. unfold unmapped. rewrite Hl1. lia. }
    destruct (rc =? MIGRATEPAGE_SUCCESS);
      cbv beta iota zeta delta [bind list_del list_add pr_err emit modify ret world_of].
    + unfold n_supply, unmapped in *. simpl. rewrite Hl1.
      pose proof (length_filter_le x (unmapped_head (lists v0))). lia.
    + unfold n_supply, unmapped in *. simpl. rewrite count_events_cons. simpl.
      rewrite Hl1. lia.
Qed.

Lemma move_sma_pages_entry_unmapped put private mode reason st x w st' w' :
  move_sma_pages_entry put private mode reason Moved_head st x w = Ret st' w' ->
  unmapped_head (lists w') = unmapped_head (lists w) \/
  unmapped_head (lists w') = filter (fun q => q <> x) (unmapped_head (lists w)).
Proof.
  unfold move_sma_pages_entry, cond_resched, emit. rewrite bind_modify.
  intros E. apply bind_Ret_inv in E as [rc [w1 [Em E]]].
  pose proof (move_sma_page_supply_once put private x mode reason
                (set_log (cons Ev_cond_resched) w)) as Hm.
  rewrite Em in Hm. simpl in Hm. destruct Hm as [_ Hl].
  destruct (rc =? - EAGAIN).
  { inversion E; subst. left. now rewrite Hl. }
  destruct (rc =? MIGRATEPAGE_SUCCESS);
    cbv beta iota zeta delta [bind list_del list_add pr_err emit modify ret] in E;
    inversion E; subst; simpl; rewrite Hl; auto.
Qed.

Lemma move_walk_unmapped put private mode reason l : forall st w st' w',
  foldM (move_sma_pages_entry put private mode reason Moved_head) st l w = Ret st' w' ->
  NoDup (unmapped_head (lists w)) ->
  NoDup (unmapped_head (lists w')) /\
  forall x, x ∈ unmapped_head (lists w') -> x ∈ unmapped_head (lists w).
Proof.
  induction l as [|y l IH]; intros st w st' w'; simpl.
  - intros E. inversion E; subst. auto.
  - intros E Hnd. apply bind_Ret_inv in E as [st1 [w1 [E1 E2]]].
    apply move_sma_pages_entry_unmapped in E1.
    assert (H1 : NoDup (unmapped_head (lists w1)) /\
                 forall x, x ∈ unmapped_head (lists w1) -> x ∈ unmapped_head (lists w)).
    { destruct E1 as [-> | ->]; [auto|]. split; [now apply NoDup_filter|].
      intros x Hx. apply list_elem_of_filter in Hx. tauto. }
    destruct H1 as [Hnd1 Hsub1].
    destruct (IH _ _ _ _ E2 Hnd1) as [Hnd' Hsub']. auto.
Qed.

(** X7.  In a Move Phase that returns, [get_new_page] is called for each page
    of the unmapped list at least once and at most ten times, and is never
    called for a page that is not on the list. *)
Theorem move_sma_pages_supply_per_page put private mode reason w st w' pg :
  NoDup (unmapped_head (lists w)) ->
  move_sma_pages_loop put private Unmapped_head mode reason Moved_head w = Ret st w' ->
  (pg ∈ unmapped_head (lists w) -> n_get pg w + 1 <= n_get pg w' <= n_get pg w + 10) /\
  (pg ∉ unmapped_head (lists w) -> n_get pg w' = n_get pg w).
Proof.
  intros Hnd E.
  set (body := list_for_each_entry_safe Unmapped_head
                 (move_sma_pages_entry put private mode reason Moved_head)).
  set (ind := fun v => if bool_decide (pg ∈ unmapped_head (lists v)) then 1 else 0).
  assert (Hpass : forall st0, returns (fun st' => pass st' = pass st0) (body st0)).
  { intros st0. apply walk_pass; [|reflexivity].
    intros st1 x. apply move_sma_pages_entry_pass. }
  assert (Hwalk : forall st0 v st1 v1,
            body st0 v = Ret st1 v1 -> NoDup (unmapped_head (lists v)) ->
            n_get pg v1 = n_get pg v + ind v /\
            NoDup (unmapped_head (lists v1)) /\ ind v1 <= ind v).
  { intros st0 v st1 v1 Ew Hv. unfold body, list_for_each_entry_safe in Ew.
    rewrite bind_read in Ew.
    pose proof (move_walk_calls pg _ _ _ _ _ _ Hv _ _ _ _ Ew) as [Hg _].
    apply move_walk_unmapped in Ew as [Hnd1 Hsub]; [|exact Hv].
    split; [exact Hg|]. split; [exact Hnd1|]. unfold ind.
    destruct (bool_decide (pg ∈ unmapped_head (lists v1))) eqn:E1;
      [|destruct (bool_decide (pg ∈ unmapped_head (lists v))); lia].
    apply bool_decide_eq_true_1 in E1. apply Hsub in E1.
    rewrite bool_decide_eq_true_2 by exact E1. lia. }
  assert (Hind : forall v, 0 <= ind v <= 1).
  { intros v. unfold ind. destruct (bool_decide _); lia. }
  assert (Hloop : forall n st0 v st1 v1,
            for_passes body n st0 v = Ret st1 v1 ->
            pass st0 <= 10 -> NoDup (unmapped_head (lists v)) ->
            n_get pg v <= n_get pg v1 <= n_get pg v + (10 - pass st0) * ind v).
  { induction n as [|n IH]; intros st0 v st1 v1; simpl.
    - intros E0 Hp _. inversion E0; subst. pose proof (Hind v1). nia.
    - destruct (pass st0 <? 10) eqn:El; cbn [andb].
      2:{ intros E0 Hp _. inversion E0; subst. pose proof (Hind v1). nia. }
      destruct (negb (retry st0 =? 0)).
      2:{ intros E0 Hp _. inversion E0; subst. pose proof (Hind v1). nia. }
      apply Z.ltb_lt in El.
      intros E0 Hp Hv. apply bind_Ret_inv in E0 as [st2 [v2 [E1 E2]]].
      pose proof (Hpass _ _ _ _ E1) as Hps. simpl in Hps.
      apply Hwalk in E1 as [Hg [Hnd2 Hle]]; [|exact Hv].
      apply IH in E2; simpl; [|lia|exact Hnd2].
      simpl in E2. pose proof (Hind v). pose proof (Hind v2). nia. }
  unfold move_sma_pages_loop in E. fold body in E.
  change (for_passes body 10 (LoopVars 1 0 0 MIGRATEPAGE_SUCCESS) w)
    with ((st' <- body (with_retry 0 (LoopVars 1 0 0 MIGRATEPAGE_SUCCESS)) ;;
           for_passes body 9 (next_pass st')) w) in E.
  apply bind_Ret_inv in E as [st1 [v1 [E1 E2]]].
  pose proof (Hpass _ _ _ _ E1) as Hps. simpl in Hps.
  apply Hwalk in E1 as [Hg [Hnd1 Hle]]; [|exact Hnd].
  apply Hloop in E2; simpl; [|lia|exact Hnd1]. simpl in E2.
  pose proof (Hind v1). split; intros Hin.
  - assert (Hw : ind w = 1) by (unfold ind; now rewrite bool_decide_eq_true_2).
    nia.
  - assert (Hw : ind w = 0) by (unfold ind; now rewrite bool_decide_eq_false_2).
    nia.
Qed.

Lemma move_sma_pages_supply_per_page_witness :
  n_get 1 retry_world + 1
  <= n_get 1 (world_of (move_sma_pages_loop true (SecMemCache 11) Unmapped_head
                          MIGRATE_SYNC_NO_COPY 0 Moved_head retry_world))
  <= n_get 1 retry_world + 10.
Proof.
  refine (proj1 (move_sma_pages_supply_per_page true (SecMemCache 11)
                   MIGRATE_SYNC_NO_COPY 0 retry_world (LoopVars 0 1 2 0) _ 1 _ _) _).
  - apply (bool_decide_unpack _). vm_compute. exact I.
  - vm_compute. reflexivity.
  - apply (bool_decide_unpack _). vm_compute. exact I.
Defined.

(** *** The codes and the diagnostics of the Unmap Phase *)

Lemma for_passes_returns (P : loop_vars -> Prop) (body : loop_vars -> M loop_vars) :
  (forall st, P st -> P (with_retry 0 st)) ->
  (forall st, P st -> P (next_pass st)) ->
  (forall st, P st -> returns P (body st)) ->
  forall n st, P st -> returns P (for_passes body n st).
Proof.
  intros Hr Hn Hb. induction n as [|n IH]; intros st Hst; simpl.
  - now apply returns_ret.
  - destruct (_ && _); [|now apply returns_ret].
    apply returns_bind_strong with (Q := P); [apply Hb, Hr, Hst|].
    intros st' Hst'. apply IH, Hn, Hst'.
Qed.

Lemma unmap_sma_pages_entry_rc mode reason head st pg :
  returns (fun st' => rc_ st' = MIGRATEPAGE_SUCCESS \/ rc_ st' = - EAGAIN)
          (unmap_sma_pages_entry mode reason head st pg).
Proof.
  unfold unmap_sma_pages_entry. apply returns_bind; intros _.
  apply returns_bind_strong with (Q := fun rc => rc = MIGRATEPAGE_SUCCESS \/ rc = - EAGAIN);
    [apply unmap_sma_page_rc|].
  intros rc Hrc. returns_struct; exact Hrc.
Qed.

Lemma unmap_sma_pages_rc from_ mode reason head :
  returns (fun rc => rc = MIGRATEPAGE_SUCCESS \/ rc = - EAGAIN)
          (unmap_sma_pages from_ mode reason head).
Proof.
  unfold unmap_sma_pages, unmap_sma_pages_loop.
  apply returns_bind_strong
    with (Q := fun st => rc_ st = MIGRATEPAGE_SUCCESS \/ rc_ st = - EAGAIN).
  - apply for_passes_returns; [auto | auto | | now left].
    intros st Hst w st' w'. unfold list_for_each_entry_safe. rewrite bind_read.
    apply (returns_foldM (fun st => rc_ st = MIGRATEPAGE_SUCCESS \/ rc_ st = - EAGAIN));
      [|exact Hst].
    intros st0 x _. apply unmap_sma_pages_entry_rc.
  - intros st Hst. now apply returns_ret.
Qed.

(** X8.  When the Unmap Phase returns, it returns MIGRATEPAGE_SUCCESS or
    -EAGAIN: the value that [migrate_sma_pages] tests, logs as a number of
    pages and returns on the abort path is never a count. *)
Theorem unmap_sma_pages_codes from_ mode reason head :
  returns (fun rc => rc = MIGRATEPAGE_SUCCESS \/ rc = - EAGAIN)
          (unmap_sma_pages from_ mode reason head).
Proof. exact (unmap_sma_pages_rc from_ mode reason head). Qed.

Lemma inv_bind_returns {A B} (I : World -> Prop) (Q : A -> Prop) (m : M A) (k : A -> M B) :
  inv I m -> returns Q m -> (forall a, Q a -> inv I (k a)) -> inv I (bind m k).
Proof.
  intros Hm Hq Hk w Hw. specialize (Hm w Hw). unfold bind.
  destruct (m w) as [a w1|why w1] eqn:E; simpl in *; [|exact Hm].
  exact (Hk a (Hq _ _ _ E) w1 Hm).
Qed.

Lemma inv_foldM_state {S} (I : World -> Prop) (P : S -> Prop) (body : S -> Z -> M S) l :
  (forall st x, P st -> inv I (body st x)) ->
  (forall st x, P st -> returns P (body st x)) ->
  forall st, P st -> inv I (foldM body st l).
Proof.
  intros Hi Hp. induction l as [|x l IH]; intros st Hst; simpl.
  - apply inv_ret.
  - apply inv_bind_returns with (Q := P); auto.
Qed.

Lemma inv_for_passes_lt (I : World -> Prop) (body : loop_vars -> M loop_vars) (n : nat) :
  (forall st, pass st < 10 -> inv I (body st)) -> forall st, inv I (for_passes body n st).
Proof.
  intros Hb. induction n as [|n IH]; intros st; simpl.
  - apply inv_ret.
  - destruct (pass st <? 10) eqn:E; cbn [andb]; [|apply inv_ret].
    destruct (negb _); [|apply inv_ret].
    apply Z.ltb_lt in E.
    apply inv_bind; [apply Hb; exact E | intros st'; apply IH].
Qed.

(** Walks the per-page code with an invariant that ignores the pages in
    [okp0] and the events in [oke0]; [side] closes what is left. *)
Ltac footprint_leaf okp0 oke0 side :=
  idtac;
  lazymatch goal with
  | |- inv _ (VM_BUG_ON_PAGE _) => apply inv_VM_BUG_ON_PAGE
  | |- inv _ (emit _) => apply inv_emit with (oke := oke0); side
  | |- inv _ (pr_err _) => apply inv_emit with (oke := oke0); side
  | |- inv _ (__unmap_sma_page_lock _ _ _) =>
      apply inv___unmap_sma_page_lock with (okp := okp0); side
  | |- inv _ (unlock_page _) => apply inv_update_page with (okp := okp0); side
  | |- inv _ (put_anon_vma _) => apply inv_update_page with (okp := okp0); side
  | |- inv _ (try_to_unmap _) => apply inv_try_to_unmap with (okp := okp0); side
  | |- inv _ (remove_migration_ptes _ _) =>
      apply inv_remove_migration_ptes with (okp := okp0); side
  | |- inv _ (page_get_anon_vma _) => apply inv_page_get_anon_vma with (okp := okp0); side
  end.

Lemma unmap_sma_page_no_loop_report c pg force mode reason :
  inv (fun v => n_loop_reports v = c) (unmap_sma_page pg force mode reason).
Proof.
  set (I := fun v => n_loop_reports v = c).
  assert (HA : forall (f : oracle -> oracle) w, I w -> I (set_adversary f w))
    by (intros f w H; exact H).
  assert (HP : forall q (f : page -> page) w, True -> I w -> I (update_page q f w))
    by (intros q f w _ H; exact H).
  assert (HR : forall m, inv I (record_ipn m)).
  { intros m. apply inv_record_ipn_mws. intros f w H. exact H. }
  assert (HL : forall e w, is_loop_report e = false -> I w -> I (set_log (cons e) w)).
  { intros e w He H. unfold I, n_loop_reports in *. now rewrite count_quiet. }
  unfold unmap_sma_page, __unmap_sma_page.
  inv_struct ltac:(idtac; footprint_leaf (fun _ : Z => True) (fun e => is_loop_report e = false)
                     ltac:(first [exact HA | exact HP | exact HR | exact HL
                                 | exact Logic.I | reflexivity])).
Qed.

(** X9.  The Unmap Phase never logs either diagnostic of its walk, whatever
    the outcome: the -EAGAIN report asks for [pass == 10] inside a loop that
    runs while [pass < 10], and the invalid-code report for a code that
    [unmap_sma_page] does not return. *)
Theorem unmap_sma_pages_walk_is_silent from_ mode reason head w :
  n_loop_reports (world_of (unmap_sma_pages from_ mode reason head w)) = n_loop_reports w.
Proof.
  set (I := fun v => n_loop_reports v = n_loop_reports w).
  change (I (world_of (unmap_sma_pages from_ mode reason head w))).
  cut (inv I (unmap_sma_pages from_ mode reason head)); [intros H; now apply H|].
  assert (HL : forall e, is_loop_report e = false -> inv I (emit e)).
  { intros e He. apply inv_modify. intros v Hv. unfold I, n_loop_reports in *.
    now rewrite count_quiet. }
  assert (HS : forall f, inv I (modify (set_lists f))).
  { intros f. apply inv_modify. intros v Hv. exact Hv. }
  unfold unmap_sma_pages, unmap_sma_pages_loop.
  apply inv_bind; [|intros st; apply inv_ret].
  apply inv_for_passes_lt. intros st Hst.
  unfold list_for_each_entry_safe. apply inv_bind; [apply inv_read | intros l].
  apply inv_foldM_state with (P := fun st' => pass st' = pass (with_retry 0 st));
    [| |reflexivity].
  2:{ intros st' x Hp. now apply unmap_sma_pages_entry_pass. }
  intros st' x Hp. simpl in Hp.
  unfold unmap_sma_pages_entry, cond_resched.
  apply inv_bind; [apply HL; reflexivity | intros _].
  apply inv_bind_returns with (Q := fun rc => rc = MIGRATEPAGE_SUCCESS \/ rc = - EAGAIN);
    [apply unmap_sma_page_no_loop_report | apply unmap_sma_page_rc |].
  intros rc [-> | ->].
  - change (MIGRATEPAGE_SUCCESS =? - EAGAIN) with false.
    change (MIGRATEPAGE_SUCCESS =? MIGRATEPAGE_SUCCESS) with true. cbv iota.
    unfold list_del, list_add, set_list.
    apply inv_bind; [apply HS | intros _].
    apply inv_bind; [apply HS | intros _; apply inv_ret].
  - change (- EAGAIN =? - EAGAIN) with true. cbv iota.
    apply inv_bind; [apply inv_read | intros mc].
    cbn [pass]. replace (pass st' =? 10) with false by (symmetry; apply Z.eqb_neq; lia).
    apply inv_bind; [apply inv_ret | intros _; apply inv_ret].
Qed.

(** *** What the two phases leave alone *)

(** X10.  Whatever its outcome, the Unmap Phase calls neither the page supply
    nor a release callback nor the monitor, and leaves the task (its flags,
    its interrupt state and its request region) as it was. *)
Theorem unmap_sma_pages_footprint from_ mode reason head w :
  let w' := world_of (unmap_sma_pages from_ mode reason head w) in
  task w' = task w /\ smc_requests w' = smc_requests w /\
  n_supply w' = n_supply w /\ n_put_new_page w' = n_put_new_page w /\
  n_put_page w' = n_put_page w.
Proof.
  intros w'. subst w'.
  set (I := fun v => task v = task w /\ smc_requests v = smc_requests w /\
                     n_supply v = n_supply w /\ n_put_new_page v = n_put_new_page w /\
                     n_put_page v = n_put_page w).
  change (I (world_of (unmap_sma_pages from_ mode reason head w))).
  cut (inv I (unmap_sma_pages from_ mode reason head)).
  { intros H. apply H. unfold I. auto. }
  apply inv_unmap_sma_pages
    with (oke := fun e => match e with Ev_pr_err _ | Ev_cond_resched => True | _ => False end);
    try (intros; first [exact Logic.I | assumption]).
  - intros e v He [Ht [Hs [Hg [Hn Hp]]]]. destruct e; try contradiction;
      (split; [exact Ht|]); (split; [exact Hs|]);
      unfold n_supply, n_put_new_page, n_put_page in *; simpl;
      rewrite !count_events_cons; simpl; lia.
  - intros m. apply inv_record_ipn_mws. intros f v Hv. exact Hv.
Qed.

(** X11.  Whatever its outcome, the Move Phase leaves the migration-window
    globals and the task as they were and sends nothing to the monitor. *)
Theorem move_sma_pages_footprint put private head mode reason moved w :
  let w' := world_of (move_sma_pages put private head mode reason moved w) in
  mws w' = mws w /\ task w' = task w /\ smc_requests w' = smc_requests w.
Proof.
  intros w'. subst w'.
  set (I := fun v => mws v = mws w /\ task v = task w /\ smc_requests v = smc_requests w).
  change (I (world_of (move_sma_pages put private head mode reason moved w))).
  cut (inv I (move_sma_pages put private head mode reason moved)).
  { intros H. apply H. unfold I. auto. }
  apply inv_move_sma_pages with (oke := fun e => is_smc e = false);
    try (intros; first [reflexivity | assumption]).
  intros e v He [Hm [Ht Hs]]. split; [exact Hm|]. split; [exact Ht|].
  now rewrite smc_requests_quiet.
Qed.

(** *** The whole batch *)

Lemma unmap_sma_pages_task T R from_ mode reason head :
  inv (fun v => task v = T /\ smc_requests v = R) (unmap_sma_pages from_ mode reason head).
Proof.
  apply inv_unmap_sma_pages with (oke := fun e => is_smc e = false);
    try (intros; first [reflexivity | assumption]).
  - intros e v He [Ht Hs]. split; [exact Ht|]. now rewrite smc_requests_quiet.
  - intros m. apply inv_record_ipn_mws. intros f v Hv. exact Hv.
Qed.

Lemma move_sma_pages_task T G R put private head mode reason moved :
  inv (fun v => task v = T /\ mws v = G /\ smc_requests v = R)
      (move_sma_pages put private head mode reason moved).
Proof.
  apply inv_move_sma_pages with (oke := fun e => is_smc e = false);
    try (intros; first [reflexivity | assumption]).
  intros e v He [Ht [Hm Hs]]. split; [exact Ht|]. split; [exact Hm|].
  now rewrite smc_requests_quiet.
Qed.

Lemma clear_set_flag f P : Z.land f P = 0 -> Z.land (Z.lor f P) (Z.lnot P) = f.
Proof.
  intros H. apply Z.bits_inj'. intros n Hn.
  assert (Hb : Z.testbit (Z.land f P) n = false) by (rewrite H; apply Z.bits_0).
  rewrite Z.land_spec in Hb.
  rewrite Z.land_spec, Z.lor_spec, Z.lnot_spec by exact Hn.
  destruct (Z.testbit f n), (Z.testbit P n); simpl in *; congruence.
Qed.

(** The stages of a call that returns: the task and the request history at
    the end of the Unmap Phase, then either the abort or the request and the
    Move Phase, then the restoring of the task flags. *)
Lemma migrate_sma_pages_stages put private mode reason w rc w' :
  migrate_sma_pages put private mode reason w = Ret rc w' ->
  let b := Z.land (current_flags (task w)) PF_SWAPWRITE =? 0 in
  let restore := fun f => if b then Z.land f (Z.lnot PF_SWAPWRITE) else f in
  let f0 := if b then Z.lor (current_flags (task w)) PF_SWAPWRITE
            else current_flags (task w) in
  exists w1,
    (rc = - EAGAIN /\
     current_flags (task w') = restore f0 /\
     irqs_disabled (task w') = irqs_disabled (task w) /\
     smc_requests w' = smc_requests w /\
     log w' = Ev_pr_err (Err_failed_unmap (- EAGAIN)) :: log w1)
    \/
    (let r := SmcReq (migrate_sec_vm_id (mws w1)) REQ_KVM_TO_S_VISOR_REMAP_IPA
                (RemapIpa (page_to_pfn (hd 0 (from (lists w)))) (base_pfn private)
                          (Z.shiftl 8 (20 - 12)) (migrate_ipns (mws w1))) in
     current_flags (task w') = restore f0 /\
     irqs_disabled (task w') = false /\
     smc_req_region (task w') = r /\
     smc_requests w' = r :: smc_requests w /\
     mws w' = Window false (migrate_sec_vm_id (mws w1)) (nr_migrate_pages (mws w1))
                     (migrate_ipns (mws w1))).
Proof.
  unfold migrate_sma_pages, INIT_LIST_HEAD, set_current_flags.
  rewrite !bind_read, !bind_modify.
  set (b := Z.land (current_flags (task w)) PF_SWAPWRITE =? 0).
  rewrite bind_when_modify, !bind_modify.
  intros E. cbv zeta. apply bind_Ret_inv in E as [rc1 [w1 [E1 E]]].
  exists w1.
  pose proof (unmap_sma_pages_rc _ _ _ _ _ _ _ E1) as Hrc1.
  match type of E1 with _ ?v = _ => set (w0 := v) in E1 end.
  assert (H0 : task w0 = task w0 /\ smc_requests w0 = smc_requests w).
  { split; [reflexivity|]. unfold w0. destruct b; reflexivity. }
  pose proof (inv_Ret _ _ _ _ _ (unmap_sma_pages_task _ _ _ _ _ _) H0 E1) as [Ht1 Hs1].
  clear H0.
  destruct (rc1 =? 0) eqn:Erc; unfold negb in E.
  - apply Z.eqb_eq in Erc. right.
    unfold local_irq_disable, local_irq_enable, smc, emit in E.
    repeat first [rewrite bind_assoc in E | rewrite bind_modify in E | rewrite bind_read in E].
    apply bind_Ret_inv in E as [rc2 [w2 [E2 E]]].
    match type of E2 with _ ?v = _ => set (v2 := v) in E2 end.
    pose proof (inv_Ret _ _ _ _ _ (move_sma_pages_task _ _ _ _ _ _ _ _ _)
                  (conj eq_refl (conj eq_refl eq_refl)) E2) as [Ht2 [Hm2 Hs2]].
    set (r := SmcReq (migrate_sec_vm_id (mws w1)) REQ_KVM_TO_S_VISOR_REMAP_IPA
                (RemapIpa (page_to_pfn (hd 0 (from (lists w)))) (base_pfn private)
                          (Z.shiftl 8 (20 - 12)) (migrate_ipns (mws w1)))).
    assert (A1 : smc_requests w2 = r :: smc_requests w)
      by (rewrite Hs2, <- Hs1; reflexivity).
    assert (A2 : task w2 = Cpu (current_flags (task w0)) false r)
      by (rewrite Ht2, <- Ht1; reflexivity).
    assert (A3 : mws w2 = Window false (migrate_sec_vm_id (mws w1))
                            (nr_migrate_pages (mws w1)) (migrate_ipns (mws w1)))
      by (rewrite Hm2; reflexivity).
    clear Ht2 Hm2 Hs2 E2 v2.
    rewrite !bind_assoc in E.
    destruct (rc2 =? 0); unfold when at 1, pr_err, emit in E;
      rewrite ?bind_modify, ?bind_ret, bind_when_modify in E;
      inversion E; subst rc w'; unfold w0 in A2; destruct b; cbn in A2 |- *;
      rewrite ?A2; cbn; repeat split; assumption.
  - apply Z.eqb_neq in Erc. left.
    destruct Hrc1 as [Hrc1 | Hrc1]; [contradiction|]. subst rc1.
    unfold pr_err, emit in E.
    rewrite !bind_assoc, bind_modify, bind_ret, bind_when_modify in E.
    inversion E; subst rc w'. split; [reflexivity|].
    unfold w0 in Ht1. destruct b; cbn in Ht1 |- *; rewrite ?Ht1; cbn;
      repeat split; exact Hs1.
Qed.

(** X12.  A call of [migrate_sma_pages] that returns has done one of two
    things.  Either the Unmap Phase failed: the code returned and logged as a
    number of pages is -EAGAIN, nothing was sent to the monitor and the
    interrupt state is as before.  Or exactly one request was sent: a
    REMAP_IPA request whose compartment and table are the globals as they
    are at return, for 2048 pages, to the base frame of the destination
    cache, from the frame of the first page of the list; the request is what
    the request region holds at return, the in-progress flag is false, and
    interrupts are enabled whatever they were at entry. *)
Theorem migrate_sma_pages_outcome put private mode reason w rc w' :
  migrate_sma_pages put private mode reason w = Ret rc w' ->
  (rc = - EAGAIN /\
   smc_requests w' = smc_requests w /\
   irqs_disabled (task w') = irqs_disabled (task w) /\
   hd_error (log w') = Some (Ev_pr_err (Err_failed_unmap (- EAGAIN))))
  \/
  (exists r,
     smc_requests w' = r :: smc_requests w /\
     smc_req_region (task w') = r /\
     irqs_disabled (task w') = false /\
     is_migrating (mws w') = false /\
     req_type r = REQ_KVM_TO_S_VISOR_REMAP_IPA /\
     sec_vm_id r = migrate_sec_vm_id (mws w') /\
     ipn_list (remap_ipa r) = migrate_ipns (mws w') /\
     nr_pages (remap_ipa r) = NR_MIGRATE_IPNS /\
     dst_start_pfn (remap_ipa r) = base_pfn private /\
     forall p l, from (lists w) = p :: l -> src_start_pfn (remap_ipa r) = page_to_pfn p).
Proof.
  intros E. apply migrate_sma_pages_stages in E. cbv zeta in E.
  destruct E as [w1 [[Hrc [_ [Hi [Hs Hl]]]] | [_ [Hi [Hr [Hs Hm]]]]]].
  - left. rewrite Hl. auto.
  - right. eexists. split; [exact Hs|]. rewrite Hr, Hi, Hm. cbn.
    repeat split. intros p l Hl. now rewrite Hl.
Qed.

Lemma migrate_sma_pages_outcome_witness :
  exists r,
    smc_requests (world_of (migrate_sma_pages true (SecMemCache 11) MIGRATE_SYNC 0 calm_world))
      = r :: smc_requests calm_world /\
    src_start_pfn (remap_ipa r) = page_to_pfn 1.
Proof.
  destruct (migrate_sma_pages_outcome true (SecMemCache 11) MIGRATE_SYNC 0 calm_world 0
              (world_of (migrate_sma_pages true (SecMemCache 11) MIGRATE_SYNC 0 calm_world)))
    as [[H _] | [r [Hr [_ [_ [_ [_ [_ [_ [_ [_ Hs]]]]]]]]]]].
  - vm_compute; reflexivity.
  - discriminate H.
  - exists r. split; [exact Hr|]. apply (Hs 1 [2]). reflexivity.
Defined.

(** X13.  A call of [migrate_sma_pages] that returns leaves the task flags
    exactly as they were at entry: PF_SWAPWRITE is cleared at [out] only when
    the call set it, on the abort path too, and neither phase touches the
    flags. *)
Theorem migrate_sma_pages_restores_flags put private mode reason w rc w' :
  migrate_sma_pages put private mode reason w = Ret rc w' ->
  current_flags (task w') = current_flags (task w).
Proof.
  intros E. apply migrate_sma_pages_stages in E. cbv zeta in E.
  assert (H : (if Z.land (current_flags (task w)) PF_SWAPWRITE =? 0
               then Z.land (Z.lor (current_flags (task w)) PF_SWAPWRITE) (Z.lnot PF_SWAPWRITE)
               else current_flags (task w)) = current_flags (task w)).
  { destruct (_ =? 0) eqn:Eb; [|reflexivity].
    apply Z.eqb_eq in Eb. now apply clear_set_flag. }
  destruct E as [w1 [[_ [Ht _]] | [Ht _]]]; rewrite Ht; destruct (_ =? 0); exact H.
Qed.

Lemma migrate_sma_pages_restores_flags_witness :
  current_flags (task (world_of (migrate_sma_pages true (SecMemCache 11) MIGRATE_SYNC 0
                                   calm_world)))
  = current_flags (task calm_world).
Proof.
  apply (migrate_sma_pages_restores_flags true (SecMemCache 11) MIGRATE_SYNC 0 calm_world 0).
  vm_compute; reflexivity.
Defined.

(** *** The per-page move *)

Lemma trylock_page_spec pg w got w1 :
  trylock_page pg w = Ret got w1 ->
  exists f,
    if got then locked (page_of w pg) = false /\
                w1 = update_page pg (with_locked true) (set_adversary f w)
    else w1 = set_adversary f w.
Proof.
  unfold trylock_page. destruct (locked (page_of w pg)) eqn:Hl.
  { intros E. inversion E; subst. exists (fun o => o). now rewrite set_adversary_id. }
  destruct (contended (adversary w)) as [|[] t]; intros E; inversion E; subst.
  - exists (fun o => o). now rewrite set_adversary_id.
  - eexists. reflexivity.
  - eexists. split; reflexivity.
Qed.

Lemma locked_update q f w p :
  (forall x, locked (f x) = locked x) ->
  locked (page_of (update_page q f w) p) = locked (page_of w p).
Proof.
  intros H. destruct (decide (q = p)) as [->|Hne].
  - now rewrite page_of_update_eq.
  - now rewrite page_of_update_ne.
Qed.

Lemma page_mapped_update_any q f w p :
  (forall x, mappings (f x) = mappings x) ->
  page_mapped (update_page q f w) p = page_mapped w p.
Proof.
  intros H. unfold page_mapped, page_mapcount. destruct (decide (q = p)) as [->|Hne].
  - now rewrite page_of_update_eq, H.
  - now rewrite page_of_update_ne.
Qed.

(** X14.  When the lock on [newpage] is obtained and the page is still
    mapped, [__move_sma_page] returns -EAGAIN through [goto failed], past the
    [unlock_page(newpage)] of line 183: the destination is still locked when
    the caller releases it. *)
Theorem __move_sma_page_still_mapped pg newpage mode w w1 :
  trylock_page newpage w = Ret true w1 ->
  page_mapped w pg = true ->
  exists w', __move_sma_page pg newpage mode w = Ret (- EAGAIN) w' /\
             locked (page_of w newpage) = false /\
             locked (page_of w' newpage) = true.
Proof.
  intros Et Hm. unfold __move_sma_page. cbv zeta.
  rewrite (bind_Ret _ _ _ _ _ Et). cbn [negb].
  apply trylock_page_spec in Et as [f [Hl ->]].
  set (v := update_page newpage (with_locked true) (set_adversary f w)).
  assert (Hv : page_mapped v pg = true).
  { unfold v. rewrite page_mapped_update_any by reflexivity. exact Hm. }
  rewrite bind_read, Hv. cbn [negb].
  rewrite !bind_read. unfold pr_err, emit. rewrite bind_modify.
  eexists. split; [reflexivity|]. split; [exact Hl|].
  unfold v. change (locked (page_of (update_page newpage (with_locked true)
                                       (set_adversary f w)) newpage) = true).
  now rewrite page_of_update_eq.
Qed.

Lemma __move_sma_page_still_mapped_witness :
  exists w', __move_sma_page 1 11 MIGRATE_SYNC calm_world = Ret (- EAGAIN) w' /\
             locked (page_of calm_world 11) = false /\
             locked (page_of w' 11) = true.
Proof.
  apply (__move_sma_page_still_mapped 1 11 MIGRATE_SYNC calm_world
           (update_page 11 (with_locked true) calm_world)).
  - vm_compute; reflexivity.
  - vm_compute; reflexivity.
Defined.

Lemma move_to_new_page_locked np pg mode w rc w' p :
  move_to_new_page np pg mode w = Ret rc w' ->
  locked (page_of w' p) = locked (page_of w p).
Proof.
  unfold move_to_new_page.
  destruct (match move_result _ with [] => _ | r :: _ => r end) as [rc0 refs].
  destruct (rc0 =? _); intros E; inversion E; subst;
    rewrite ?locked_update by reflexivity; reflexivity.
Qed.

(** X15.  [__move_sma_page] returns MIGRATEPAGE_SUCCESS only for a page that
    had no mapping left, and then both the page and its destination are
    unlocked: the lock that the Unmap Phase kept is released here. *)
Theorem __move_sma_page_success pg newpage mode w w' :
  __move_sma_page pg newpage mode w = Ret MIGRATEPAGE_SUCCESS w' ->
  page_mapped w pg = false /\
  locked (page_of w' pg) = false /\ locked (page_of w' newpage) = false.
Proof.
  unfold __move_sma_page. cbv zeta. intros E.
  apply bind_Ret_inv in E as [got [w1 [Et E]]].
  apply trylock_page_spec in Et as [f Ht].
  destruct got; cbn [negb] in E.
  2:{ unfold pr_err, emit in E. rewrite bind_modify in E. inversion E. }
  destruct Ht as [_ ->].
  rewrite bind_read in E.
  rewrite page_mapped_update_any in E by reflexivity.
  change (page_mapped (set_adversary f w) pg) with (page_mapped w pg) in E.
  destruct (page_mapped w pg); cbn [negb] in E.
  { rewrite !bind_read in E. unfold pr_err, emit in E. rewrite bind_modify in E.
    inversion E. }
  split; [reflexivity|].
  apply bind_Ret_inv in E as [rc [w2 [_ E]]].
  rewrite bind_read in E.
  apply bind_Ret_inv in E as [[] [w3 [_ E]]].
  apply bind_Ret_inv in E as [[] [w4 [_ E]]].
  unfold unlock_page in E. rewrite bind_modify in E.
  set (w5 := update_page newpage (with_locked false) w4) in E.
  assert (H5 : locked (page_of w5 newpage) = false).
  { unfold w5. now rewrite page_of_update_eq. }
  clearbody w5.
  destruct (rc =? MIGRATEPAGE_SUCCESS) eqn:Erc; cbn [negb] in E.
  2:{ inversion E; subst. discriminate. }
  apply bind_Ret_inv in E as [anon_vma [w6 [Ea E]]].
  assert (H6 : locked (page_of w6 newpage) = false).
  { unfold page_get_anon_vma in Ea. destruct (_ && _); inversion Ea; subst;
      rewrite ?locked_update by reflexivity; exact H5. }
  apply bind_Ret_inv in E as [[] [w7 [Ep E]]].
  assert (H7 : locked (page_of w7 newpage) = false).
  { unfold put_anon_vma in Ep. destruct anon_vma; inversion Ep; subst;
      rewrite ?locked_update by reflexivity; exact H6. }
  rewrite bind_modify in E. inversion E; subst. split.
  - now rewrite page_of_update_eq.
  - destruct (decide (pg = newpage)) as [->|Hne].
    + now rewrite page_of_update_eq.
    + rewrite page_of_update_ne by exact Hne. exact H7.
Qed.

Lemma __move_sma_page_success_witness :
  page_mapped single_move_world 1 = false /\
  locked (page_of (world_of (__move_sma_page 1 11 MIGRATE_SYNC_NO_COPY single_move_world)) 1)
    = false.
Proof.
  pose proof (__move_sma_page_success 1 11 MIGRATE_SYNC_NO_COPY single_move_world
                (world_of (__move_sma_page 1 11 MIGRATE_SYNC_NO_COPY single_move_world)))
    as H.
  destruct H as [H1 [H2 _]]; [vm_compute; reflexivity|]. split; assumption.
Defined.

(** *** Edge cases of the batch *)

Lemma move_sma_pages_entry_no_supply put private mode reason moved st pg w :
  supply (adversary w) = [] ->
  exists st' w',
    move_sma_pages_entry put private mode reason moved st pg w = Ret st' w' /\
    supply (adversary w') = [] /\ lists w' = lists w /\ pages w' = pages w /\
    n_iterations w' = n_iterations w + 1 /\
    n_put_new_page w' = n_put_new_page w /\ n_put_page w' = n_put_page w /\
    retry st' = retry st /\ pass st' = pass st /\ rc_ st' = - ENOMEM.
Proof.
  intros Hs. unfold move_sma_pages_entry, cond_resched, emit. rewrite bind_modify.
  unfold move_sma_page. rewrite bind_assoc.
  unfold bind at 1. unfold get_new_page. cbn [supply adversary set_log].
  rewrite Hs. cbv iota.
  rewrite bind_assoc, bind_read. unfold pr_err, emit.
  rewrite bind_assoc, bind_modify, bind_ret.
  change (- ENOMEM =? - EAGAIN) with false.
  change (- ENOMEM =? MIGRATEPAGE_SUCCESS) with false. cbv iota.
  rewrite bind_modify.
  eexists. eexists. split; [reflexivity|].
  cbn. rewrite Hs. repeat split.
  unfold n_iterations. cbn. rewrite !count_events_cons. cbn. lia.
Qed.

Lemma move_walk_no_supply put private mode reason moved l : forall st w,
  supply (adversary w) = [] ->
  exists st' w',
    foldM (move_sma_pages_entry put private mode reason moved) st l w = Ret st' w' /\
    supply (adversary w') = [] /\ lists w' = lists w /\ pages w' = pages w /\
    n_iterations w' = n_iterations w + Z.of_nat (length l) /\
    n_put_new_page w' = n_put_new_page w /\ n_put_page w' = n_put_page w /\
    retry st' = retry st /\ pass st' = pass st /\ (l <> [] -> rc_ st' = - ENOMEM).
Proof.
  induction l as [|x l IH]; intros st w Hs.
  - exists st, w. cbn. repeat split; auto; [lia | congruence].
  - destruct (move_sma_pages_entry_no_supply put private mode reason moved st x w Hs)
      as [st1 [w1 [E1 [Hs1 [Hl1 [Hp1 [Hn1 [Ha1 [Hb1 [Hr1 [Hq1 Hc1]]]]]]]]]]].
    destruct (IH st1 w1 Hs1)
      as [st2 [w2 [E2 [Hs2 [Hl2 [Hp2 [Hn2 [Ha2 [Hb2 [Hr2 [Hq2 Hc2]]]]]]]]]]].
    exists st2, w2. cbn [foldM]. rewrite (bind_Ret _ _ _ _ _ E1).
    split; [exact E2|]. repeat split; try congruence.
    + rewrite Hn2, Hn1. cbn [length]. lia.
    + intros _. destruct l as [|y l']; [|apply Hc2; discriminate].
      cbn in E2. inversion E2; subst. exact Hc1.
Qed.

(** X16.  When the page supply has nothing to give, the Move Phase makes one
    pass and gives up: it returns -ENOMEM, no page is retried or released,
    and the lists and the pages are left exactly as the Unmap Phase left
    them. *)
Theorem move_sma_pages_without_supply put private mode reason w :
  supply (adversary w) = [] ->
  unmapped_head (lists w) <> [] ->
  exists w',
    move_sma_pages put private Unmapped_head mode reason Moved_head w = Ret (- ENOMEM) w' /\
    lists w' = lists w /\ pages w' = pages w /\
    n_iterations w' = n_iterations w + unmapped w /\
    n_put_new_page w' = n_put_new_page w /\ n_put_page w' = n_put_page w.
Proof.
  intros Hs Hne.
  destruct (move_walk_no_supply put private mode reason Moved_head
              (unmapped_head (lists w)) (LoopVars 0 0 0 MIGRATEPAGE_SUCCESS) w Hs)
    as [st [w' [E [_ [Hl [Hp [Hn [Ha [Hb [Hr [Hq Hc]]]]]]]]]]].
  exists w'. unfold move_sma_pages, move_sma_pages_loop.
  change (for_passes ?body 10 (LoopVars 1 0 0 MIGRATEPAGE_SUCCESS))
    with (st' <- body (LoopVars 0 0 0 MIGRATEPAGE_SUCCESS) ;; for_passes body 9 (next_pass st')).
  unfold list_for_each_entry_safe at 1.
  rewrite !bind_assoc, bind_read. cbn [list_of].
  rewrite (bind_Ret _ _ _ _ _ E).
  cbn [for_passes]. cbn in Hr, Hq. 
  replace (pass (next_pass st) <? 10) with true
    by (symmetry; apply Z.ltb_lt; cbn; lia).
  replace (retry (next_pass st) =? 0) with true
    by (symmetry; apply Z.eqb_eq; cbn; lia).
  cbn [andb negb]. rewrite bind_ret. cbn [rc_ next_pass].
  rewrite (Hc Hne). repeat split; assumption.
Qed.

Lemma move_sma_pages_without_supply_witness :
  let w := moving [(1, unmapped_page 7 100)] [1] 1 (Oracle [] [] [] []) in
  exists w',
    move_sma_pages true (SecMemCache 11) Unmapped_head MIGRATE_SYNC_NO_COPY 0 Moved_head w
      = Ret (- ENOMEM) w' /\
    lists w' = lists w.
Proof.
  intros w.
  destruct (move_sma_pages_without_supply true (SecMemCache 11) MIGRATE_SYNC_NO_COPY 0 w)
    as [w' [E [Hl _]]].
  - vm_compute; reflexivity.
  - vm_compute; discriminate.
  - exists w'. split; assumption.
Defined.

(** X17.  An empty list is not refused: [migrate_sma_pages] returns
    MIGRATEPAGE_SUCCESS, having sent one request to the monitor and done
    nothing else that is visible, no iteration, no supply call, no report,
    no change to any page. *)
Theorem migrate_sma_pages_empty_batch put private mode reason w :
  from (lists w) = [] ->
  exists r w',
    migrate_sma_pages put private mode reason w = Ret MIGRATEPAGE_SUCCESS w' /\
    log w' = Ev_smc r :: log w /\ pages w' = pages w /\
    from (lists w') = [] /\ unmapped_head (lists w') = [] /\ moved_head (lists w') = [].
Proof.
  intros Hf. unfold migrate_sma_pages, INIT_LIST_HEAD, set_current_flags.
  rewrite !bind_read, !bind_modify.
  set (b := Z.land (current_flags (task w)) PF_SWAPWRITE =? 0).
  rewrite bind_when_modify, !bind_modify.
  match goal with |- context [bind (unmap_sma_pages _ _ _ _) _ ?v] => set (w0 := v) end.
  assert (E1 : unmap_sma_pages From mode reason Unmapped_head w0 = Ret MIGRATEPAGE_SUCCESS w0).
  { unfold unmap_sma_pages, unmap_sma_pages_loop.
    change (for_passes ?body 10 (LoopVars 1 0 0 MIGRATEPAGE_SUCCESS))
      with (st' <- body (LoopVars 0 0 0 MIGRATEPAGE_SUCCESS) ;;
            for_passes body 9 (next_pass st')).
    unfold list_for_each_entry_safe at 1. rewrite !bind_assoc, bind_read.
    replace (list_of From w0) with (@nil Z)
      by (unfold w0; destruct b; cbn; now rewrite Hf).
    reflexivity. }
  rewrite (bind_Ret _ _ _ _ _ E1). clear E1.
  change (negb (MIGRATEPAGE_SUCCESS =? 0)) with false. cbv iota.
  unfold local_irq_disable, local_irq_enable, smc, emit.
  repeat first [rewrite bind_assoc | rewrite bind_modify | rewrite bind_read].
  match goal with
  | |- context [bind (move_sma_pages _ _ _ _ _ _) _ ?v] => set (w2 := v)
  end.
  assert (E2 : move_sma_pages put private Unmapped_head MIGRATE_SYNC_NO_COPY reason
                 Moved_head w2 = Ret MIGRATEPAGE_SUCCESS w2).
  { unfold move_sma_pages, move_sma_pages_loop.
    change (for_passes ?body 10 (LoopVars 1 0 0 MIGRATEPAGE_SUCCESS))
      with (st' <- body (LoopVars 0 0 0 MIGRATEPAGE_SUCCESS) ;;
            for_passes body 9 (next_pass st')).
    unfold list_for_each_entry_safe at 1. rewrite !bind_assoc, bind_read.
    replace (list_of Unmapped_head w2) with (@nil Z)
      by (unfold w2, w0; destruct b; reflexivity).
    reflexivity. }
  rewrite (bind_Ret _ _ _ _ _ E2). clear E2.
  change (negb (MIGRATEPAGE_SUCCESS =? 0)) with false.
  unfold when at 1. eexists. eexists.
  split; [rewrite !bind_assoc, !bind_ret, bind_when_modify; reflexivity|].
  unfold w2, w0. destruct b; cbn; rewrite Hf; repeat split.
Qed.

Lemma migrate_sma_pages_empty_batch_witness :
  let w := boot [(1, guest_page 7 100)] [] (Oracle [] [] [] []) in
  exists r w',
    migrate_sma_pages true (SecMemCache 11) MIGRATE_SYNC 0 w = Ret MIGRATEPAGE_SUCCESS w' /\
    log w' = Ev_smc r :: log w.
Proof.
  intros w.
  destruct (migrate_sma_pages_empty_batch true (SecMemCache 11) MIGRATE_SYNC 0 w)
    as [r [w' [E [Hl _]]]].
  - vm_compute; reflexivity.
  - exists r, w'. split; assumption.
Defined.

(** X18.  The Unmap Phase works on the pages of its list only: whatever the
    outcome, a page that is not on the list is left exactly as it was. *)
Theorem unmap_sma_pages_frame mode reason w p :
  p ∉ from (lists w) ->
  page_of (world_of (unmap_sma_pages From mode reason Unmapped_head w)) p = page_of w p.
Proof.
  intros Hp.
  set (J := fun v => page_of v p = page_of w p /\
                     forall x, x ∈ from (lists v) -> x ∈ from (lists w)).
  cut (inv J (unmap_sma_pages From mode reason Unmapped_head)).
  { intros H. apply H. split; auto. }
  assert (HL : forall e, inv J (emit e)).
  { intros e. apply inv_modify. intros v Hv. exact Hv. }
  unfold unmap_sma_pages, unmap_sma_pages_loop.
  apply inv_bind; [|intros st; apply inv_ret].
  apply inv_for_passes. intros st v Hv.
  unfold list_for_each_entry_safe. rewrite bind_read.
  apply (inv_foldM J _ (fun x => x <> p)); [| |exact Hv].
  2:{ apply Forall_forall. intros x Hx ->. apply Hp, Hv. exact Hx. }
  clear v Hv. intros st' x Hx.
  unfold unmap_sma_pages_entry, cond_resched, pr_err.
  apply inv_bind; [apply HL | intros _].
  apply inv_bind.
  { unfold unmap_sma_page.
    apply inv___unmap_sma_page with (okp := fun q => q <> p) (oke := fun _ => True);
      try (intros; first [exact I | assumption]).
    - intros m. apply inv_record_ipn_mws. intros f v Hv. exact Hv.
    - intros q f v Hq [H1 H2]. split; [|exact H2].
      now rewrite page_of_update_ne. }
  intros rc. destruct (rc =? - EAGAIN).
  { apply inv_bind; [apply inv_read | intros mc].
    apply inv_bind; [apply inv_when, HL | intros _; apply inv_ret]. }
  destruct (rc =? MIGRATEPAGE_SUCCESS).
  2:{ apply inv_bind; [apply HL | intros _; apply inv_ret]. }
  unfold list_del, list_add.
  apply inv_bind; [|intros _; apply inv_bind; [|intros _; apply inv_ret]];
    apply inv_modify; intros v [H1 H2]; (split; [exact H1|]); intros y Hy.
  - apply H2. cbn in Hy. apply list_elem_of_filter in Hy. tauto.
  - apply H2. exact Hy.
Qed.

Lemma unmap_sma_pages_frame_witness :
  page_of (world_of (unmap_sma_pages From MIGRATE_SYNC 0 Unmapped_head calm_world)) 11
  = page_of calm_world 11.
Proof.
  apply (unmap_sma_pages_frame MIGRATE_SYNC 0 calm_world 11).
  apply (bool_decide_unpack _). vm_compute. exact I.
Defined.


